(** * forwarder: a shallow embedding of the proxy core and its properties

    The development follows the layout of the Go sources:

    - [Result]      : Go's [(value, error)] returns and panics;
    - [Fmt]         : the [fmt] verbs of [Context.ID];
    - [Martian]     : [internal/martian/context.go] (sessions, contexts, ids);
    - [Http]        : the parts of [net/url], [net/http] and [net] in use;
    - [Httplog]     : [httplog/httplog.go] (log modes);
    - [Httpexpect]  : the e2e HTTP client helper ([Client.do]);
    - [Pac]         : the upstream candidates of a PAC answer;
    - [Forwarder]   : [http_proxy.go] (construction, upstream selection,
                      localhost classification, credentials);
    - [Samples]     : concrete configurations and requests.

    The properties follow, one module of facts per module of code.

    Go integers are modelled as [Z] with the wrap-around of their width
    written out, strings as [string], maps as [gmap]; a nil pointer or
    interface is [None]. *)

From Stdlib Require Import ZArith NArith Lia.
From Stdlib Require Import Strings.String Strings.Ascii.
From Stdlib Require DecimalString HexadecimalString DecimalN HexadecimalN DecimalZ.
From stdpp Require Import base option list strings gmap.

Local Open Scope string_scope.
Local Open Scope Z_scope.

(** ** Go results *)

Module Result.

(** A Go error is identified with the text returned by its [Error()]. *)
Definition error := string.

(** The outcome of a call: a value, an error, or a panic. *)
Inductive outcome (A : Type) : Type :=
| Ok (a : A)
| Err (e : error)
| Panic (msg : string).

Global Arguments Ok {A} a.
Global Arguments Err {A} e.
Global Arguments Panic {A} msg.

Definition is_err {A} (o : outcome A) : bool :=
  match o with Err _ => true | _ => false end.

Definition is_ok {A} (o : outcome A) : bool :=
  match o with Ok _ => true | _ => false end.

End Result.
Import Result.

(** ** Strings: the two [fmt] verbs used by the sources *)

Module Fmt.

(** [%d] of an unsigned integer. *)
Definition fmt_d (n : Z) : string :=
  DecimalString.NilZero.string_of_uint (N.to_uint (Z.to_N n)).

Fixpoint zeros (k : nat) : string :=
  match k with
  | O => EmptyString
  | S k' => String "0" (zeros k')
  end.

(** Left padding with ['0'] up to width [w]; longer strings are kept. *)
Definition pad0 (w : nat) (s : string) : string :=
  zeros (w - String.length s) +:+ s.

(** [%08x] of an unsigned integer: lower-case hexadecimal, zero padded
    to eight characters. *)
Definition fmt_08x (h : Z) : string :=
  pad0 8 (HexadecimalString.NilZero.string_of_uint (N.to_hex_uint (Z.to_N h))).

(** The characters of a string are all decimal digits. *)
Fixpoint all_digits (s : string) : bool :=
  match s with
  | EmptyString => true
  | String c s' =>
      (match c with
       | "0" | "1" | "2" | "3" | "4" | "5" | "6" | "7" | "8" | "9" => true
       | _ => false
       end%char) && all_digits s'
  end.

End Fmt.

(** ** internal/martian/context.go *)

Module Martian.

Import Fmt.

(** Handles for the values Go keeps behind interfaces and pointers. *)
Definition Conn := nat.
Definition ReadWriter := nat.
Definition ResponseWriter := nat.
Definition any := string.

Definition uint64 (z : Z) : Z := z mod 2 ^ 64.
Definition uint32 (z : Z) : Z := z mod 2 ^ 32.

(** [type Session struct]; the mutex is not a field of the model: every
    method below is one critical section. *)
Record Session : Type := mkSession {
  secure : bool;
  hijacked : bool;
  conn : option Conn;
  brw : option ReadWriter;
  rw : option ResponseWriter;
  svals : gmap string any;
}.

(** [type Context struct]; [session] is the address of the session. *)
Record Context : Type := mkContext {
  session : nat;
  n : Z;
  hash : Z;
  vals : gmap string any;
  skipRoundTrip : bool;
}.

Definition newSession (c : Conn) (b : ReadWriter) : Session :=
  {| secure := false; hijacked := false; conn := Some c; brw := Some b;
     rw := None; svals := ∅ |}.

Definition newSessionWithResponseWriter (w : ResponseWriter) : Session :=
  {| secure := false; hijacked := false; conn := None; brw := None;
     rw := Some w; svals := ∅ |}.

Definition set_hijacked (b : bool) (s : Session) : Session :=
  {| secure := secure s; hijacked := b; conn := conn s; brw := brw s;
     rw := rw s; svals := svals s |}.

Definition IsSecure (s : Session) : bool := secure s.

Definition MarkSecure (s : Session) : Session :=
  {| secure := true; hijacked := hijacked s; conn := conn s; brw := brw s;
     rw := rw s; svals := svals s |}.

Definition MarkInsecure (s : Session) : Session :=
  {| secure := false; hijacked := hijacked s; conn := conn s; brw := brw s;
     rw := rw s; svals := svals s |}.

Definition Hijacked (s : Session) : bool := hijacked s.

Definition SessionGet (s : Session) (key : string) : option any :=
  svals s !! key.

Definition SessionSet (s : Session) (key : string) (val : any) : Session :=
  {| secure := secure s; hijacked := hijacked s; conn := conn s;
     brw := brw s; rw := rw s; svals := <[key := val]> (svals s) |}.

Definition errAlreadyHijacked : error := "session has already been hijacked".
Definition errNoResponseWriter : error := "session has no response writer".
Definition panicNoConn : string := "session has no connection or response writer".

(** [Session.Hijack].  [ctl] is what
    [http.NewResponseController(s.rw).Hijack()] answers when it is asked.
    The deferred assignment [s.hijacked = err == nil] runs on every exit
    after it was registered, the panic included (where [err] is still
    nil); it is not registered on the early return. *)
Definition Hijack (ctl : outcome (Conn * option ReadWriter)) (s : Session)
  : outcome (Conn * option ReadWriter) * Session :=
  if hijacked s then (Err errAlreadyHijacked, s)
  else
    match conn s with
    | Some c => (Ok (c, brw s), set_hijacked true s)
    | None =>
        match rw s with
        | Some _ =>
            match ctl with
            | Ok r => (Ok r, set_hijacked true s)
            | Err e => (Err e, set_hijacked false s)
            | Panic m => (Panic m, set_hijacked true s)
            end
        | None => (Panic panicNoConn, set_hijacked true s)
        end
    end.

(** [Session.HijackResponseWriter]. *)
Definition HijackResponseWriter (s : Session)
  : outcome ResponseWriter * Session :=
  if hijacked s then (Err errAlreadyHijacked, s)
  else
    match rw s with
    | Some w => (Ok w, set_hijacked true s)
    | None => (Err errNoResponseWriter, s)
    end.

(** The methods of a session, as calls made by the proxy and by the
    modifiers on one connection. *)
Inductive call : Type :=
| CHijack (ctl : outcome (Conn * option ReadWriter))
| CHijackResponseWriter
| CMarkSecure
| CMarkInsecure
| CSet (key : string) (val : any).

(** What a call reports: was it a hijack attempt, and did it fail with
    an error. *)
Inductive report : Type :=
| RHijack (r : outcome (Conn * option ReadWriter))
| RHijackResponseWriter (r : outcome ResponseWriter)
| RUnit.

Definition exec (c : call) (s : Session) : report * Session :=
  match c with
  | CHijack ctl => let '(r, s') := Hijack ctl s in (RHijack r, s')
  | CHijackResponseWriter =>
      let '(r, s') := HijackResponseWriter s in (RHijackResponseWriter r, s')
  | CMarkSecure => (RUnit, MarkSecure s)
  | CMarkInsecure => (RUnit, MarkInsecure s)
  | CSet k v => (RUnit, SessionSet s k v)
  end.

Fixpoint run (cs : list call) (s : Session) : list report * Session :=
  match cs with
  | [] => ([], s)
  | c :: cs' =>
      let '(r, s') := exec c s in
      let '(rs, s'') := run cs' s' in
      (r :: rs, s'')
  end.

Definition hijack_succeeded (r : report) : bool :=
  match r with
  | RHijack o => is_ok o
  | RHijackResponseWriter o => is_ok o
  | RUnit => false
  end.

(** What a call made on a hijacked session reports: both hijack methods
    return the error [errAlreadyHijacked], the other methods return
    nothing. *)
Definition refused (c : call) (r : report) : Prop :=
  match c with
  | CHijack _ => r = RHijack (Err errAlreadyHijacked)
  | CHijackResponseWriter => r = RHijackResponseWriter (Err errAlreadyHijacked)
  | CMarkSecure | CMarkInsecure | CSet _ _ => r = RUnit
  end.

(** *** Contexts and their ids *)

(** Process-wide state: [var nextID atomic.Uint64]. *)
Record Process : Type := mkProcess { nextID : Z }.

Definition start : Process := {| nextID := 0 |}.

(** [withSession]: [now] is the reading of [time.Now().UnixNano()]. *)
Definition withSession (s : nat) (now : Z) (p : Process) : Context * Process :=
  let id := uint64 (nextID p + 1) in
  ({| session := s; n := id; hash := uint32 now; vals := ∅;
      skipRoundTrip := false |},
   {| nextID := id |}).

(** [Context.ID]: [fmt.Sprintf("%d-%08x", ctx.n, ctx.hash)]. *)
Definition ID (ctx : Context) : string :=
  fmt_d (n ctx) +:+ "-" +:+ fmt_08x (hash ctx).

Definition ContextSession (ctx : Context) : nat := session ctx.

Definition ContextGet (ctx : Context) (key : string) : option any :=
  vals ctx !! key.

Definition ContextSet (ctx : Context) (key : string) (val : any) : Context :=
  {| session := session ctx; n := n ctx; hash := hash ctx;
     vals := <[key := val]> (vals ctx); skipRoundTrip := skipRoundTrip ctx |}.

Definition SkipRoundTrip (ctx : Context) : Context :=
  {| session := session ctx; n := n ctx; hash := hash ctx;
     vals := vals ctx; skipRoundTrip := true |}.

Definition SkippingRoundTrip (ctx : Context) : bool := skipRoundTrip ctx.

(** The contexts a process creates, in creation order: one
    [withSession] per element of [reqs], which gives the session and
    the clock reading of that creation. *)
Fixpoint create (reqs : list (nat * Z)) (p : Process) : list Context :=
  match reqs with
  | [] => []
  | (s, now) :: reqs' =>
      let '(ctx, p') := withSession s now p in
      ctx :: create reqs' p'
  end.

(** The spec's reading of "process-relative salt": one 32-bit value
    shared by all contexts of the process. *)
Definition same_salt (ctxs : list Context) : Prop :=
  ∀ c1 c2, c1 ∈ ctxs → c2 ∈ ctxs → hash c1 = hash c2.

End Martian.

(** ** The parts of [net/url] and [net/http] the sources use *)

Module Http.

(** [url.Userinfo]; a nil [*Userinfo] is [None] where it is stored. *)
Record Userinfo : Type := mkUserinfo {
  username : string;
  password : string;
  passwordSet : bool;
}.

Definition Username (u : Userinfo) : string := username u.
Definition Password (u : Userinfo) : string * bool := (password u, passwordSet u).

(** [url.URL], with the fields the sources read or write. *)
Record URL : Type := mkURL {
  Scheme : string;
  User : option Userinfo;
  Host : string;
  Path : string;
}.

Definition with_User (u : option Userinfo) (x : URL) : URL :=
  {| Scheme := Scheme x; User := u; Host := Host x; Path := Path x |}.

(** [http.Header]: canonical key to the list of its values. *)
Definition HeaderGet (h : gmap string (list string)) (key : string) : string :=
  match h !! key with
  | Some (v :: _) => v
  | _ => ""
  end.

Definition HeaderSet (h : gmap string (list string)) (key val : string)
  : gmap string (list string) :=
  <[key := [val]]> h.

(** [http.Request]; [Trace] is the value the request's context holds
    under [log.TraceContextKey]. *)
Record Request : Type := mkRequest {
  Method : string;
  RURL : URL;
  Header : gmap string (list string);
  Trace : option string;
}.

Definition with_Header (h : gmap string (list string)) (r : Request) : Request :=
  {| Method := Method r; RURL := RURL r; Header := h; Trace := Trace r |}.

(** [http.Response]; [Body] is the whole body, [http.NoBody] is [""]. *)
Record Response : Type := mkResponse {
  StatusCode : Z;
  Status : string;
  ProtoMajor : Z;
  ProtoMinor : Z;
  RespHeader : gmap string (list string);
  Body : string;
  RespRequest : option Request;
}.

Definition StatusInternalServerError : Z := 500.

(** [http.StatusText], as the Go standard library defines it; codes
    without a registered phrase give the empty string. *)
Definition StatusText (code : Z) : string :=
  match code with
  | 100 => "Continue"
  | 101 => "Switching Protocols"
  | 102 => "Processing"
  | 103 => "Early Hints"
  | 200 => "OK"
  | 201 => "Created"
  | 202 => "Accepted"
  | 203 => "Non-Authoritative Information"
  | 204 => "No Content"
  | 205 => "Reset Content"
  | 206 => "Partial Content"
  | 207 => "Multi-Status"
  | 208 => "Already Reported"
  | 226 => "IM Used"
  | 300 => "Multiple Choices"
  | 301 => "Moved Permanently"
  | 302 => "Found"
  | 303 => "See Other"
  | 304 => "Not Modified"
  | 305 => "Use Proxy"
  | 307 => "Temporary Redirect"
  | 308 => "Permanent Redirect"
  | 400 => "Bad Request"
  | 401 => "Unauthorized"
  | 402 => "Payment Required"
  | 403 => "Forbidden"
  | 404 => "Not Found"
  | 405 => "Method Not Allowed"
  | 406 => "Not Acceptable"
  | 407 => "Proxy Authentication Required"
  | 408 => "Request Timeout"
  | 409 => "Conflict"
  | 410 => "Gone"
  | 411 => "Length Required"
  | 412 => "Precondition Failed"
  | 413 => "Request Entity Too Large"
  | 414 => "Request URI Too Long"
  | 415 => "Unsupported Media Type"
  | 416 => "Requested Range Not Satisfiable"
  | 417 => "Expectation Failed"
  | 418 => "I'm a teapot"
  | 421 => "Misdirected Request"
  | 422 => "Unprocessable Entity"
  | 423 => "Locked"
  | 424 => "Failed Dependency"
  | 425 => "Too Early"
  | 426 => "Upgrade Required"
  | 428 => "Precondition Required"
  | 429 => "Too Many Requests"
  | 431 => "Request Header Fields Too Large"
  | 451 => "Unavailable For Legal Reasons"
  | 500 => "Internal Server Error"
  | 501 => "Not Implemented"
  | 502 => "Bad Gateway"
  | 503 => "Service Unavailable"
  | 504 => "Gateway Timeout"
  | 505 => "HTTP Version Not Supported"
  | 506 => "Variant Also Negotiates"
  | 507 => "Insufficient Storage"
  | 508 => "Loop Detected"
  | 510 => "Not Extended"
  | 511 => "Network Authentication Required"
  | _ => ""
  end.

(** [net.IP] is a byte slice of length 4 or 16. *)
Definition IP := list Z.

Definition v4InV6Prefix : list Z := [0; 0; 0; 0; 0; 0; 0; 0; 0; 0; 255; 255].
Definition IPv6loopback : IP := [0; 0; 0; 0; 0; 0; 0; 0; 0; 0; 0; 0; 0; 0; 0; 1].

Definition bytes_eqb (a b : list Z) : bool := bool_decide (a = b).

(** [IP.To4]. *)
Definition To4 (ip : IP) : option IP :=
  if (length ip =? 4)%nat then Some ip
  else if (length ip =? 16)%nat && bytes_eqb (take 12 ip) v4InV6Prefix
       then Some (drop 12 ip)
       else None.

(** [IP.Equal], between an address and the IPv6 loopback address; the
    4-byte and the mapped 16-byte form of an address are equal. *)
Definition Equal (ip x : IP) : bool :=
  if (length ip =? length x)%nat then bytes_eqb ip x
  else if (length ip =? 4)%nat && (length x =? 16)%nat
       then bytes_eqb (take 12 x) v4InV6Prefix && bytes_eqb ip (drop 12 x)
  else if (length ip =? 16)%nat && (length x =? 4)%nat
       then bytes_eqb (take 12 ip) v4InV6Prefix && bytes_eqb (drop 12 ip) x
  else false.

(** [IP.IsLoopback]. *)
Definition IsLoopback (ip : IP) : bool :=
  match To4 ip with
  | Some ip4 => match ip4 with b :: _ => (b =? 127)%Z | [] => false end
  | None => Equal ip IPv6loopback
  end.

End Http.

(** ** httplog/httplog.go *)

Module Httplog.

Import Http.

(** [type Mode string]. *)
Definition Mode := string.
Definition None : Mode := "none".
Definition ShortURL : Mode := "short-url".
Definition URL : Mode := "url".
Definition Headers : Mode := "headers".
Definition Body : Mode := "body".
Definition Errors : Mode := "errors".

(** [middleware.LogEntry], with the fields the logger reads. *)
Record LogEntry : Type := mkLogEntry {
  ERequest : Request;
  EResponse : option Response;
  EStatus : Z;
  EDuration : Z;
}.

(** [type logWriter struct]. *)
Record logWriter : Type := mkLogWriter {
  b : string;
  body : bool;
}.

Definition write (s : string) (w : logWriter) : logWriter :=
  {| b := b w +:+ s; body := body w |}.

Section Logger.

(** Formatting and snapshot services of [fmt], [net/url] and
    [messageview]:
    [Redacted] is [url.URL.Redacted], [fmt_v] is [%v] of the status,
    [fmt_s] is [%s] of the duration, [snapshotRequest] and
    [snapshotResponse] stand for the snapshot of a message (with the
    body skipped or not), its reader and the copy to the buffer: they
    give the bytes that reached the buffer and the error that stopped
    the three steps, if any. *)
Variable Redacted : Http.URL → string.
Variable fmt_v : Z → string.
Variable fmt_s : Z → string.
Variable snapshotRequest : bool → Request → string * option Result.error.
Variable snapshotResponse : bool → Response → string * option Result.error.

Definition trace (e : LogEntry) (w : logWriter) : logWriter :=
  match Trace (ERequest e) with
  | Some t => write ("[" +:+ t +:+ "] ") w
  | Datatypes.None => w
  end.

Definition URLLine (e : LogEntry) (w : logWriter) : logWriter :=
  let w := trace e w in
  write (Method (ERequest e) +:+ " " +:+ Redacted (RURL (ERequest e)) +:+
         " status=" +:+ fmt_v (EStatus e) +:+
         " duration=" +:+ fmt_s (EDuration e) +:+ "
") w.

Definition ShortURLLine (e : LogEntry) (w : logWriter) : logWriter :=
  let w := trace e w in
  let u := RURL (ERequest e) in
  let scheme := if String.eqb (Scheme u) "" then "" else Scheme u +:+ "://" in
  let path :=
    match Path u with
    | String c _ => if Ascii.eqb c "/" then Path u else "/" +:+ Path u
    | EmptyString => Path u
    end in
  write (Method (ERequest e) +:+ " " +:+ (scheme +:+ Host u +:+ path) +:+
         " status=" +:+ fmt_v (EStatus e) +:+
         " duration=" +:+ fmt_s (EDuration e) +:+ "
") w.

(** [logWriter.dump]: the request, then the response if there is one;
    the first error ends the dump. *)
Definition dump (e : LogEntry) (w : logWriter) : option Result.error * logWriter :=
  let '(s, err) := snapshotRequest (negb (body w)) (ERequest e) in
  let w := write s w in
  match err with
  | Some _ => (err, w)
  | Datatypes.None =>
      match EResponse e with
      | Datatypes.None => (Datatypes.None, w)
      | Some res =>
          let '(s', err') := snapshotResponse (negb (body w)) res in
          (err', write s' w)
      end
  end.

Definition error (err : Result.error) (w : logWriter) : logWriter :=
  write ("
logger error: " +:+ err +:+ "
") w.

Definition sep (w : logWriter) : logWriter := write "
" w.

Definition Dump (e : LogEntry) (w : logWriter) : logWriter :=
  match dump e w with
  | (Some err, w') => sep (error err w')
  | (Datatypes.None, w') => sep w'
  end.

Definition empty (withBody : bool) : logWriter := {| b := ""; body := withBody |}.

(** [logWriter.String]. *)
Definition String (w : logWriter) : string := b w.

(** [Logger.LogFunc].  The returned function is modelled by the list
    of messages it passes to [l.log], in order; an unknown mode
    panics when [LogFunc] is called. *)
Definition LogFunc (mode : Mode) : outcome (LogEntry → list string) :=
  if String.eqb mode "" || String.eqb mode None then
    Ok (fun e => [])
  else if String.eqb mode ShortURL then
    Ok (fun e => [String (ShortURLLine e (empty false))])
  else if String.eqb mode URL then
    Ok (fun e => [String (URLLine e (empty false))])
  else if String.eqb mode Headers then
    Ok (fun e => [String (Dump e (ShortURLLine e (empty false)))])
  else if String.eqb mode Body then
    Ok (fun e => [String (Dump e (ShortURLLine e (empty true)))])
  else if String.eqb mode Errors then
    Ok (fun e =>
          if (EStatus e <? StatusInternalServerError)%Z then []
          else [String (Dump e (ShortURLLine e (empty false)))])
  else Panic ("unknown log mode " +:+ mode).

End Logger.

End Httplog.

(** ** The e2e HTTP client helper ([package httpexpect]) *)

Module Httpexpect.

Import Http.

(** [http.RoundTripper.RoundTrip]: the pair [(resp, err)] it returns. *)
Definition RoundTripper := Request → option Response * option error.

(** The loop [for i := 400; i < 600; i++] of [Client.do], from [i] with
    [k] iterations left: the first code whose status text is the error
    message. *)
Fixpoint scan (k : nat) (i : Z) (msg : string) : option Z :=
  match k with
  | O => None
  | S k' => if String.eqb msg (StatusText i) then Some i
            else scan k' (i + 1) msg
  end.

Definition synthesized (i : Z) (req : Request) : Response :=
  {| StatusCode := i;
     Status := StatusText i;
     ProtoMajor := 1;
     ProtoMinor := 1;
     RespHeader := ∅;
     Body := "";
     RespRequest := Some req |}.

(** [Client.do]. *)
Definition do (rt : RoundTripper) (req : Request)
  : option Response * option error :=
  let '(resp, err) := rt req in
  match err with
  | Some e =>
      if String.eqb (Scheme (RURL req)) "https" then
        match scan 200 400 e with
        | Some i => (Some (synthesized i req), None)
        | None => (resp, err)
        end
      else (resp, err)
  | None => (resp, err)
  end.

End Httpexpect.

(** ** pac: the upstream candidates *)

Module Pac.

(** [type Mode int], in the order fixed by [mode_string.go]. *)
Inductive Mode : Type := DIRECT | PROXY | HTTP | HTTPS | SOCKS | SOCKS4 | SOCKS5.

Definition Mode_value (m : Mode) : Z :=
  match m with
  | DIRECT => 0 | PROXY => 1 | HTTP => 2 | HTTPS => 3
  | SOCKS => 4 | SOCKS4 => 5 | SOCKS5 => 6
  end.

(** [type Proxy struct], as the tests build it. *)
Record Proxy : Type := mkProxy {
  PMode : Mode;
  PHost : string;
  PPort : string;
}.

(** Modelled from the spec: [Proxy.URL] is not among the sources.  An
    upstream candidate is DIRECT, which carries no host and port and has
    no URL, or a proxy of some mode with a host and a port; its URL has
    the scheme of the mode and the authority [host:port], and a
    candidate has no field for user-info.  [scheme] gives the scheme of
    a mode. *)
Definition URL (scheme : Mode → string) (p : Proxy) : option Http.URL :=
  match PMode p with
  | DIRECT => None
  | m => Some {| Http.Scheme := scheme m; Http.User := None;
                 Http.Host := PHost p +:+ ":" +:+ PPort p;
                 Http.Path := "" |}
  end.

End Pac.

(** ** http_proxy.go *)

Module Forwarder.

Import Http.

(** [type ProxyLocalhostMode string]. *)
Definition ProxyLocalhostMode := string.
Definition DenyProxyLocalhost : ProxyLocalhostMode := "deny".
Definition AllowProxyLocalhost : ProxyLocalhostMode := "allow".
Definition DirectProxyLocalhost : ProxyLocalhostMode := "direct".

Definition isValid (m : ProxyLocalhostMode) : bool :=
  String.eqb m DenyProxyLocalhost || String.eqb m AllowProxyLocalhost
  || String.eqb m DirectProxyLocalhost.

(** [type ProxyFunc]: from a request to a proxy URL or an error; a nil
    URL is DIRECT. *)
Definition ProxyFunc := Request → outcome (option URL).

(** Objects the proxy only calls are modelled by the method it calls:
    [ruleset.RegexpMatcher] by [Match], [CredentialsMatcher] by
    [MatchURL] (on a possibly nil URL), [PACResolver] by
    [FindProxyForURL]. *)
Definition RegexpMatcher := string → bool.
Definition CredentialsMatcher := option URL → option Userinfo.
Definition PACResolver := URL → string → outcome string.

Definition MITMConfig := nat.
Definition MartianMITM := nat.
Definition Listener := nat.

Inductive Transport : Type :=
| DefaultTransportClone
| CustomTransport (h : nat).

(** [type HTTPProxyConfig struct], with the fields that configure
    upstream selection and validation; [Protocol] and [BasicAuth] come
    from the embedded [HTTPServerConfig]. *)
Record HTTPProxyConfig : Type := mkConfig {
  Protocol : string;
  BasicAuth : option Userinfo;
  LogHTTPMode : Httplog.Mode;
  MITM : option MITMConfig;
  MITMDomains : option RegexpMatcher;
  ProxyLocalhost : ProxyLocalhostMode;
  UpstreamProxy : option URL;
  UpstreamProxyFunc : option ProxyFunc;
  DenyDomains : option RegexpMatcher;
  DirectDomains : option RegexpMatcher;
  RequestIDHeader : string;
}.

(** [type HTTPProxy struct]; of the embedded martian proxy the model
    keeps the MITM configuration and the upstream function it is given. *)
Record HTTPProxy : Type := mkProxy {
  config : HTTPProxyConfig;
  pac : option PACResolver;
  creds : CredentialsMatcher;
  transport : Transport;
  mitm : option MartianMITM;
  proxyFunc : option ProxyFunc;
  listener : option Listener;
}.

Definition errBothUpstreamAndPAC : error := "cannot use both upstream proxy and PAC".

(** The [HTTPProxy] value [newHTTPProxy] builds before it configures
    it; a nil transport [rt] is replaced by a clone of the default one. *)
Definition initialProxy (cfg : HTTPProxyConfig) (pr : option PACResolver)
  (cm : CredentialsMatcher) (rt : option nat) : HTTPProxy :=
  {| config := cfg; pac := pr; creds := cm;
     transport := match rt with
                  | None => DefaultTransportClone
                  | Some h => CustomTransport h
                  end;
     mitm := None; proxyFunc := None; listener := None |}.

(** [http.ProxyURL]. *)
Definition ProxyURL (u : URL) : ProxyFunc := fun _ => Ok (Some u).

Section Proxy.

(** Collaborators that are not among the sources:
    [HTTPScheme]/[HTTPSScheme] are the scheme constants,
    [ServerValidate] is [HTTPServerConfig.Validate],
    [validateProxyURL] its namesake, [newMartianMITMConfig] its
    namesake, [Hostname] is [url.URL.Hostname], [First] is
    [pac.Proxies(s).First()], [scheme] the scheme of a PAC mode,
    [LookupHost] is [localhostResolver.LookupHost], [ParseIP] is
    [net.ParseIP], [basicAuth] is the base64 credential of
    [http.Request.SetBasicAuth], [configureHTTPS] and [listen] are the
    methods of these names, by the error they return and the listener
    they open. *)
Variable HTTPScheme HTTPSScheme : string.
Variable ServerValidate : HTTPProxyConfig → option error.
Variable validateProxyURL : option URL → option error.
Variable newMartianMITMConfig : MITMConfig → outcome MartianMITM.
Variable Hostname : URL → string.
Variable First : string → outcome Pac.Proxy.
Variable scheme : Pac.Mode → string.
Variable LookupHost : string → outcome (list string).
Variable ParseIP : string → option IP.
Variable basicAuth : string → string → string.
Variable configureHTTPS : HTTPProxy → option error.
Variable listen : HTTPProxy → outcome Listener.

(** [HTTPProxyConfig.Validate]. *)
Definition Validate (c : HTTPProxyConfig) : option error :=
  match ServerValidate c with
  | Some err => Some err
  | None =>
      if negb (String.eqb (Protocol c) HTTPScheme)
         && negb (String.eqb (Protocol c) HTTPSScheme)
      then Some ("unsupported protocol: " +:+ Protocol c)
      else if negb (isValid (ProxyLocalhost c))
      then Some ("unsupported proxy_localhost: " +:+ ProxyLocalhost c)
      else match validateProxyURL (UpstreamProxy c) with
           | Some err => Some ("upstream_proxy_uri: " +:+ err)
           | None => None
           end
  end.

(** [HTTPProxy.upstreamProxyURL]; it is called with
    [config.UpstreamProxy] set to [up]. *)
Definition upstreamProxyURL (hp : HTTPProxy) (up : URL) : URL :=
  let proxyURL := up in
  match User proxyURL with
  | None =>
      match creds hp (Some proxyURL) with
      | Some u => with_User (Some u) proxyURL
      | None => proxyURL
      end
  | Some _ => proxyURL
  end.

(** [HTTPProxy.pacProxy]; it is installed when [hp.pac] is [pr].
    Assigning [proxyURL.User] through a nil [proxyURL] panics. *)
Definition pacProxy (hp : HTTPProxy) (pr : PACResolver) : ProxyFunc :=
  fun r =>
    match pr (RURL r) "" with
    | Ok s =>
        match First s with
        | Ok p =>
            let proxyURL := Pac.URL scheme p in
            match creds hp proxyURL with
            | Some u =>
                match proxyURL with
                | Some x => Ok (Some (with_User (Some u) x))
                | None => Panic "nil pointer dereference"
                end
            | None => Ok proxyURL
            end
        | Err err => Err err
        | Panic m => Panic m
        end
    | Err err => Err err
    | Panic m => Panic m
    end.

(** [HTTPProxy.isLocalhost], on the hostname and on the request.
    [addrs[0]] of an empty answer panics. *)
Definition isLocalhostName (h : string) : outcome bool :=
  if String.eqb h "localhost" then Ok true
  else
    match LookupHost h with
    | Ok addrs =>
        match addrs with
        | a :: _ =>
            match ParseIP a with
            | Some ip => Ok (IsLoopback ip)
            | None => Ok false
            end
        | [] => Panic "index out of range"
        end
    | Err _ => Ok false
    | Panic m => Panic m
    end.

Definition isLocalhost (req : Request) : outcome bool :=
  isLocalhostName (Hostname (RURL req)).

(** [HTTPProxy.directDomains], for [config.DirectDomains] set to [dd]. *)
Definition directDomains (dd : RegexpMatcher) (fn : option ProxyFunc)
  : option ProxyFunc :=
  match fn with
  | None => None
  | Some f =>
      Some (fun req => if dd (Hostname (RURL req)) then Ok None else f req)
  end.

(** [HTTPProxy.directLocalhost]. *)
Definition directLocalhost (fn : option ProxyFunc) : option ProxyFunc :=
  match fn with
  | None => None
  | Some f =>
      Some (fun req =>
              match isLocalhost req with
              | Ok true => Ok None
              | Ok false => f req
              | Err err => Err err
              | Panic m => Panic m
              end)
  end.

(** The [switch] of [configureProxy] that picks the upstream source. *)
Definition selectProxyFunc (hp : HTTPProxy) : option ProxyFunc :=
  match UpstreamProxyFunc (config hp) with
  | Some f => Some f
  | None =>
      match UpstreamProxy (config hp) with
      | Some up => Some (ProxyURL (upstreamProxyURL hp up))
      | None =>
          match pac hp with
          | Some pr => Some (pacProxy hp pr)
          | None => None
          end
      end
  end.

Definition set_proxy (m : option MartianMITM) (f : option ProxyFunc)
  (hp : HTTPProxy) : HTTPProxy :=
  {| config := config hp; pac := pac hp; creds := creds hp;
     transport := transport hp; mitm := m; proxyFunc := f;
     listener := listener hp |}.

(** [HTTPProxy.configureProxy]: MITM set-up, the choice of the
    upstream source and its two wrappers.  The settings copied to the
    martian proxy and the middleware stack cannot fail and are not
    part of the state of the model. *)
Definition configureProxy (hp : HTTPProxy) : outcome HTTPProxy :=
  let finish (m : option MartianMITM) :=
    let f := selectProxyFunc hp in
    let f := match DirectDomains (config hp) with
             | Some dd => directDomains dd f
             | None => f
             end in
    let f := if String.eqb (ProxyLocalhost (config hp)) DirectProxyLocalhost
             then directLocalhost f else f in
    Ok (set_proxy m f hp) in
  match MITM (config hp) with
  | Some mc =>
      match newMartianMITMConfig mc with
      | Ok m => finish (Some m)
      | Err err => Err ("mitm: " +:+ err)
      | Panic msg => Panic msg
      end
  | None => finish None
  end.

(** [newHTTPProxy]; [rt] is the transport, nil or a custom one. *)
Definition newHTTPProxy (cfg : HTTPProxyConfig) (pr : option PACResolver)
  (cm : CredentialsMatcher) (rt : option nat) : outcome HTTPProxy :=
  match Validate cfg with
  | Some err => Err err
  | None =>
      match UpstreamProxy cfg, pr with
      | Some _, Some _ => Err errBothUpstreamAndPAC
      | _, _ => configureProxy (initialProxy cfg pr cm rt)
      end
  end.

Definition set_listener (l : Listener) (hp : HTTPProxy) : HTTPProxy :=
  {| config := config hp; pac := pac hp; creds := creds hp;
     transport := transport hp; mitm := mitm hp; proxyFunc := proxyFunc hp;
     listener := Some l |}.

(** [NewHTTPProxy]: the proxy of [newHTTPProxy], with TLS configured for
    the https protocol and the listener opened. *)
Definition NewHTTPProxy (cfg : HTTPProxyConfig) (pr : option PACResolver)
  (cm : CredentialsMatcher) (rt : option nat) : outcome HTTPProxy :=
  match newHTTPProxy cfg pr cm rt with
  | Ok hp =>
      match (if String.eqb (Protocol (config hp)) HTTPSScheme
             then configureHTTPS hp else None) with
      | Some err => Err err
      | None =>
          match listen hp with
          | Ok l => Ok (set_listener l hp)
          | Err err => Err err
          | Panic m => Panic m
          end
      end
  | Err err => Err err
  | Panic m => Panic m
  end.

(** [NewHTTPProxyHandler]; the handler is the configured proxy. *)
Definition NewHTTPProxyHandler (cfg : HTTPProxyConfig) (pr : option PACResolver)
  (cm : CredentialsMatcher) (rt : option nat) : outcome HTTPProxy :=
  match newHTTPProxy cfg pr cm rt with
  | Ok hp => Ok hp
  | Err err => Err err
  | Panic m => Panic m
  end.

(** [http.Request.SetBasicAuth]. *)
Definition SetBasicAuth (user pass : string) (req : Request) : Request :=
  with_Header
    (HeaderSet (Header req) "Authorization" ("Basic " +:+ basicAuth user pass))
    req.

(** [HTTPProxy.setBasicAuth]: the request after the call and the
    error returned. *)
Definition setBasicAuth (hp : HTTPProxy) (req : Request)
  : Request * option error :=
  if String.eqb (HeaderGet (Header req) "Authorization") "" then
    match creds hp (Some (RURL req)) with
    | Some u =>
        let '(p, _) := Password u in
        (SetBasicAuth (Username u) p req, None)
    | None => (req, None)
    end
  else (req, None).

End Proxy.


(** *** The resolver of the localhost classification *)

(** [net.Resolver], with the two fields [nopResolver] sets. *)
Record Resolver : Type := mkResolver {
  PreferGo : bool;
  Dial : string → string → outcome Martian.Conn;
}.

(** What a lookup can see: the entries of the local hosts file for a
    name, in file order, and the answer a DNS server would give for the
    name to a resolver that reached it. *)
Record Network : Type := mkNetwork {
  hostsFile : string → list string;
  nameserver : string;
  publicDNS : string → list string;
}.

(** Modelled from the spec: [net.Resolver.LookupHost] is the Go
    library's and [nopResolver] is not among the sources.  A literal IP
    address is its own answer; a name found in the hosts file is
    answered from the file; every other name needs a DNS exchange,
    which starts by dialling the name server through [Dial]. *)
Definition ResolverLookupHost (ParseIP : string → option IP)
  (r : Resolver) (net : Network) (host : string) : outcome (list string) :=
  if String.eqb host "" then Err "no such host"
  else
    match ParseIP host with
    | Some _ => Ok [host]
    | None =>
        match hostsFile net host with
        | a :: l => Ok (a :: l)
        | [] =>
            match Dial r "udp" (nameserver net) with
            | Ok _ =>
                match publicDNS net host with
                | a :: l => Ok (a :: l)
                | [] => Err "no such host"
                end
            | Err err => Err err
            | Panic m => Panic m
            end
        end
    end.

(** Modelled from the spec: [nopResolver] is not among the sources.
    "A dns resolver that does not ever dial": its [Dial] fails without
    touching the network. *)
Definition nopResolver : Resolver :=
  {| PreferGo := true; Dial := fun _ _ => Err "no dial" |}.

(** The local answer for a name: the literal itself, or the hosts-file
    entries. *)
Definition localLookup (ParseIP : string → option IP) (net : Network)
  (host : string) : list string :=
  if String.eqb host "" then []
  else match ParseIP host with
       | Some _ => [host]
       | None => hostsFile net host
       end.

(** The claim of the specification, word for word: the hostname is
    "localhost", or the hosts-file lookup returns an IP that is a
    loopback address. *)
Definition spec_isLocalhost (ParseIP : string → option IP)
  (addrs : list string) (h : string) : Prop :=
  h = "localhost" ∨ ∃ a ip, a ∈ addrs ∧ ParseIP a = Some ip ∧ IsLoopback ip = true.

(** What the code decides: the hostname is "localhost", or the first
    address of the lookup is an IP that is a loopback address. *)
Definition first_isLocalhost (ParseIP : string → option IP)
  (addrs : list string) (h : string) : Prop :=
  h = "localhost" ∨
  ∃ a rest ip, addrs = a :: rest ∧ ParseIP a = Some ip ∧ IsLoopback ip = true.

(** The values of [net.ParseIP] on the addresses of the examples. *)
Definition sampleParseIP (s : string) : option IP :=
  if String.eqb s "127.0.0.1" then Some (v4InV6Prefix ++ [127; 0; 0; 1])%list
  else if String.eqb s "127.99.0.5" then Some (v4InV6Prefix ++ [127; 99; 0; 5])%list
  else if String.eqb s "10.0.0.1" then Some (v4InV6Prefix ++ [10; 0; 0; 1])%list
  else if String.eqb s "::1" then Some IPv6loopback
  else None.

End Forwarder.

(** ** Sample configurations

    Concrete collaborators, configurations and requests on which the
    properties below are exercised. *)

Module Samples.

Import Http Forwarder.

(** [url.URL.Hostname] on the authorities of the examples: the part
    between the brackets of a bracketed IPv6 literal, else the part
    before the last colon, else the whole authority. *)
Fixpoint beforeLastColon (s : string) : option string :=
  match s with
  | EmptyString => None
  | String c s' =>
      match beforeLastColon s' with
      | Some t => Some (String c t)
      | None => if Ascii.eqb c ":" then Some EmptyString else None
      end
  end.

Fixpoint beforeBracket (s : string) : string :=
  match s with
  | EmptyString => EmptyString
  | String c s' => if Ascii.eqb c "]" then EmptyString
                   else String c (beforeBracket s')
  end.

Definition hostname (u : URL) : string :=
  match Host u with
  | String "[" rest => beforeBracket rest
  | h => match beforeLastColon h with
         | Some h' => h'
         | None => h
         end
  end.

Definition pacScheme (m : Pac.Mode) : string :=
  match m with
  | Pac.DIRECT => ""
  | Pac.PROXY | Pac.HTTP => "http"
  | Pac.HTTPS => "https"
  | Pac.SOCKS | Pac.SOCKS5 => "socks5"
  | Pac.SOCKS4 => "socks4"
  end.

(** [First] on the two PAC answers of the examples. *)
Definition pacFirst (s : string) : outcome Pac.Proxy :=
  if String.eqb s "PROXY p1:8080; DIRECT"
  then Ok {| Pac.PMode := Pac.PROXY; Pac.PHost := "p1"; Pac.PPort := "8080" |}
  else if String.eqb s "DIRECT"
  then Ok {| Pac.PMode := Pac.DIRECT; Pac.PHost := ""; Pac.PPort := "" |}
  else Err "invalid proxy string".

Definition pacScript : PACResolver := fun _ _ => Ok "PROXY p1:8080; DIRECT".

Definition alice : Userinfo :=
  {| username := "alice"; password := "secret"; passwordSet := true |}.
Definition bob : Userinfo :=
  {| username := "bob"; password := "hunter2"; passwordSet := true |}.

(** A matcher with the single rule [p1:8080 -> alice:secret] for
    proxies and [origin.test:* -> alice:secret] for origins. *)
Definition credentials : CredentialsMatcher :=
  fun u =>
    match u with
    | Some x =>
        if String.eqb (Host x) "p1:8080" || String.eqb (hostname x) "origin.test"
        then Some alice else None
    | None => None
    end.

Definition noCredentials : CredentialsMatcher := fun _ => None.

Definition upstream : URL :=
  {| Scheme := "http"; User := None; Host := "p1:8080"; Path := "" |}.

Definition upstreamWithUser : URL :=
  {| Scheme := "http"; User := Some bob; Host := "p1:8080"; Path := "" |}.

Definition baseConfig : HTTPProxyConfig :=
  {| Protocol := "http"; BasicAuth := None; LogHTTPMode := Httplog.Errors;
     MITM := None; MITMDomains := None; ProxyLocalhost := DenyProxyLocalhost;
     UpstreamProxy := None; UpstreamProxyFunc := None; DenyDomains := None;
     DirectDomains := None; RequestIDHeader := "X-Request-Id" |}.

Definition with_upstream (up : option URL) (f : option ProxyFunc)
  (c : HTTPProxyConfig) : HTTPProxyConfig :=
  {| Protocol := Protocol c; BasicAuth := BasicAuth c;
     LogHTTPMode := LogHTTPMode c; MITM := MITM c;
     MITMDomains := MITMDomains c; ProxyLocalhost := ProxyLocalhost c;
     UpstreamProxy := up; UpstreamProxyFunc := f;
     DenyDomains := DenyDomains c; DirectDomains := DirectDomains c;
     RequestIDHeader := RequestIDHeader c |}.

Definition proxyOf (c : HTTPProxyConfig) (pr : option PACResolver)
  (cm : CredentialsMatcher) : HTTPProxy :=
  {| config := c; pac := pr; creds := cm; transport := DefaultTransportClone;
     mitm := None; proxyFunc := None; listener := None |}.

Definition get (scheme host path : string) : Request :=
  {| Method := "GET";
     RURL := {| Scheme := scheme; User := None; Host := host; Path := path |};
     Header := ∅; Trace := None |}.

Definition serverValidate : HTTPProxyConfig → option error := fun _ => None.
Definition proxyURLValid : option URL → option error := fun _ => None.
Definition mitmConfig : MITMConfig → outcome MartianMITM := fun m => Ok m.
Definition base64 : string → string → string := fun u p => u +:+ ":" +:+ p.

(** A hosts file that lists a name twice, the loopback address last,
    and a public DNS that answers [127.0.0.1] for [example.com]. *)
Definition network : Network :=
  {| hostsFile := fun h =>
       if String.eqb h "dual.internal" then ["10.0.0.1"; "127.0.0.1"]
       else if String.eqb h "dev.internal" then ["127.0.0.1"]
       else [];
     nameserver := "192.0.2.53:53";
     publicDNS := fun h =>
       if String.eqb h "example.com" then ["127.0.0.1"] else [] |}.

End Samples.

(** ** internal/martian/context.go: the request's context *)

Module MartianContext.

Import Martian.

(** The keys of a [context.Context].  The two typed keys of the sources
    are [martianKey] (of package martian) and [TraceContextKey] (of
    package log); both have an unexported type, so no key of another
    package equals them. *)
Inductive key : Type :=
| martianKey
| TraceContextKey
| otherKey (k : string).

Definition key_eqb (a b : key) : bool :=
  match a, b with
  | martianKey, martianKey => true
  | TraceContextKey, TraceContextKey => true
  | otherKey x, otherKey y => String.eqb x y
  | _, _ => false
  end.

(** The values stored: a [*Context] or a string. *)
Inductive value : Type :=
| VContext (c : Context)
| VString (s : string).

(** A [context.Context] is the chain of its [WithValue] bindings, the
    innermost first; [context.Background()] is the empty chain. *)
Definition GoContext := list (key * value).

Definition Background : GoContext := [].

Definition WithValue (parent : GoContext) (k : key) (v : value) : GoContext :=
  (k, v) :: parent.

Fixpoint Value (ctx : GoContext) (k : key) : option value :=
  match ctx with
  | [] => None
  | (k', v) :: parent => if key_eqb k k' then Some v else Value parent k
  end.

(** [FromContext]; the forced type assertion panics on a value that is
    no [*Context]. *)
Definition FromContext (ctx : GoContext) : outcome (option Context) :=
  match Value ctx martianKey with
  | None => Ok None
  | Some (VContext c) => Ok (Some c)
  | Some (VString _) => Panic "interface conversion"
  end.

(** [Context.addToContext]; [rctx] may be nil. *)
Definition addToContext (ctx : Context) (rctx : option GoContext) : GoContext :=
  let rctx := match rctx with Some r => r | None => Background end in
  let mctx := WithValue rctx martianKey (VContext ctx) in
  WithValue mctx TraceContextKey (VString (ID ctx)).

(** [TestContext], on the context of the request ([NewContext(req)] is
    [FromContext(req.Context())], and [req.Clone] copies the request
    with the new context).  [addr] is the address of the session that
    [newSession] allocates, [now] the clock reading of [withSession].
    The result is the context, the session created (if any), the context
    of the request afterwards and the process state. *)
Definition TestContext (rctx : GoContext) (c : Conn) (bw : ReadWriter)
  (addr : nat) (now : Z) (p : Process)
  : outcome (Context * option Session * GoContext * Process) :=
  match FromContext rctx with
  | Ok (Some ctx) => Ok (ctx, None, rctx, p)
  | Ok None =>
      let s := newSession c bw in
      let '(ctx, p') := withSession addr now p in
      Ok (ctx, Some s, addToContext ctx (Some rctx), p')
  | Err e => Err e
  | Panic m => Panic m
  end.

(** A context is well formed when every binding of [martianKey] holds a
    [*Context]: the only writer of that key is [addToContext]. *)
Definition well_formed (ctx : GoContext) : Prop :=
  ∀ k v, (k, v) ∈ ctx → k = martianKey → ∃ c, v = VContext c.

(** Reading an id back: the decimal digits before the dash and the
    hexadecimal digits after it. *)
Fixpoint splitDash (s : string) : option (string * string) :=
  match s with
  | EmptyString => None
  | String c s' =>
      if Ascii.eqb c "-" then Some (EmptyString, s')
      else match splitDash s' with
           | Some (a, b) => Some (String c a, b)
           | None => None
           end
  end.

Definition parseID (s : string) : option (Z * Z) :=
  match splitDash s with
  | Some (a, b) =>
      match DecimalString.NilZero.uint_of_string a,
            HexadecimalString.NilEmpty.uint_of_string b with
      | Some d, Some h => Some (Z.of_N (N.of_uint d), Z.of_N (N.of_hex_uint h))
      | _, _ => None
      end
  | None => None
  end.

End MartianContext.

(** ** internal/martian/log/log.go *)

Module MartianLog.

Import MartianContext.

(** [type Logger interface]: a logger is what its three methods print
    for a format and its arguments. *)
Record Logger : Type := mkLogger {
  LInfof : string → list string → list string;
  LDebugf : string → list string → list string;
  LErrorf : string → list string → list string;
}.

(** [nopLogger]. *)
Definition nopLogger : Logger :=
  {| LInfof := fun _ _ => []; LDebugf := fun _ _ => [];
     LErrorf := fun _ _ => [] |}.

(** [var currLogger Logger = nopLogger{}] and [SetLogger]. *)
Definition currLogger0 : Logger := nopLogger.
Definition SetLogger (l : Logger) (curr : Logger) : Logger := l.

Section Trace.

(** [%s] of a stored value that is no string. *)
Variable show : Martian.Context → string.

Definition fmt_s (v : value) : string :=
  match v with
  | VString s => s
  | VContext c => show c
  end.

(** [withTrace]. *)
Definition withTrace (ctx : GoContext) (format : string) : string :=
  match Value ctx TraceContextKey with
  | Some v => "[" +:+ fmt_s v +:+ "] " +:+ format
  | None => format
  end.

(** [Infof], [Debugf], [Errorf], on the current logger. *)
Definition Infof (curr : Logger) (ctx : GoContext) (format : string)
  (args : list string) : list string :=
  LInfof curr (withTrace ctx format) args.

Definition Debugf (curr : Logger) (ctx : GoContext) (format : string)
  (args : list string) : list string :=
  LDebugf curr (withTrace ctx format) args.

Definition Errorf (curr : Logger) (ctx : GoContext) (format : string)
  (args : list string) : list string :=
  LErrorf curr (withTrace ctx format) args.

End Trace.

End MartianLog.

(** ** pac/mode_string.go *)

Module PacMode.

Definition _Mode_name : string := "DIRECTPROXYHTTPHTTPSSOCKSSOCKS4SOCKS5".

Definition _Mode_index : list Z := [0; 6; 11; 15; 20; 25; 31; 37].

(** [strconv.FormatInt(i, 10)]. *)
Definition FormatInt (i : Z) : string :=
  DecimalString.NilZero.string_of_int (Z.to_int i).

(** The slice expression [s[lo:hi]] of a string; it panics unless
    [0 <= lo <= hi <= len(s)]. *)
Definition slice (s : string) (lo hi : Z) : outcome string :=
  if (0 <=? lo) && (lo <=? hi) && (hi <=? Z.of_nat (String.length s))
  then Ok (String.substring (Z.to_nat lo) (Z.to_nat (hi - lo)) s)
  else Panic "slice bounds out of range".

(** [Mode.String], on the integer value of the mode; an index outside
    the array panics. *)
Definition String (i : Z) : outcome string :=
  if (i <? 0) || (i >=? Z.of_nat (length _Mode_index) - 1)
  then Ok ("Mode(" +:+ FormatInt i +:+ ")")
  else
    match _Mode_index !! Z.to_nat i, _Mode_index !! Z.to_nat (i + 1) with
    | Some lo, Some hi => slice _Mode_name lo hi
    | _, _ => Panic "index out of range"
    end.

(** The name of a mode, as the PAC keyword. *)
Definition keyword (m : Pac.Mode) : string :=
  match m with
  | Pac.DIRECT => "DIRECT"
  | Pac.PROXY => "PROXY"
  | Pac.HTTP => "HTTP"
  | Pac.HTTPS => "HTTPS"
  | Pac.SOCKS => "SOCKS"
  | Pac.SOCKS4 => "SOCKS4"
  | Pac.SOCKS5 => "SOCKS5"
  end.

End PacMode.

(** ** pac: the DNS handlers of the resolver *)

Module PacHandlers.

Import Http.

(** The values of the script engine that the handlers take or return. *)
Inductive JSValue : Type :=
| Undefined
| Null
| JSString (s : string)
| JSNumber (k : Z).

(** [goja.FunctionCall.Argument]: an argument that was not passed is
    undefined. *)
Definition Argument (args : list JSValue) (i : nat) : JSValue :=
  default Undefined (args !! i).

(** The two testing seams of the resolver's configuration; a nil seam is
    [None]. *)
Record ProxyResolverConfig : Type := mkResolverConfig {
  testingLookupIP : option (string → string → outcome (list IP));
  testingMyIPAddress : option (list IP);
}.

Section Handlers.

(** [asString] is the helper of that name (the string held by a value
    and whether it holds one), [IPString] is [net.IP.String],
    [resolverLookupIP] is [pr.resolver.LookupIP] on a network and a
    host, [systemIPs] is [myIPAddress(false)]. *)
Variable asString : JSValue → string * bool.
Variable IPString : IP → string.
Variable resolverLookupIP : string → string → outcome (list IP).
Variable systemIPs : list IP.

(** [ProxyResolver.dnsResolve]; [ips[0]] of an empty answer panics. *)
Definition dnsResolve (cfg : ProxyResolverConfig) (args : list JSValue)
  : outcome JSValue :=
  let '(host, ok) := asString (Argument args 0) in
  if negb ok then Ok Undefined
  else
    let lookupIP := match testingLookupIP cfg with
                    | Some f => f
                    | None => resolverLookupIP
                    end in
    match lookupIP "ip4" host with
    | Ok ips =>
        match ips with
        | ip :: _ => Ok (JSString (IPString ip))
        | [] => Panic "index out of range"
        end
    | Err _ => Ok Null
    | Panic m => Panic m
    end.

(** [ProxyResolver.myIPAddress]. *)
Definition myIPAddress (cfg : ProxyResolverConfig) (args : list JSValue)
  : JSValue :=
  let ips := match testingMyIPAddress cfg with
             | Some l => l
             | None => systemIPs
             end in
  match ips with
  | [] => JSString "127.0.0.1"
  | ip :: _ => JSString (IPString ip)
  end.

End Handlers.

End PacHandlers.

(** ** http_proxy.go: modes, listener, request modifiers *)

Module ForwarderMore.

Import Http Forwarder Martian MartianContext.

(** [ProxyLocalhostMode.UnmarshalText]: the error, and the mode after
    the call. *)
Definition UnmarshalText (text : string) (m : ProxyLocalhostMode)
  : option error * ProxyLocalhostMode :=
  if String.eqb text DenyProxyLocalhost || String.eqb text AllowProxyLocalhost
     || String.eqb text DirectProxyLocalhost
  then (None, text)
  else (Some ("invalid mode: " +:+ text), m).

(** [ProxyLocalhostMode.String]. *)
Definition ModeString (m : ProxyLocalhostMode) : string := m.

(** The listeners [listen] builds: the TCP listener of [net.Listen], the
    rate-limited listener of [ratelimit.NewListener] with its two
    arguments in the order of the call, the TLS listener of
    [tls.NewListener]. *)
Inductive NetListener : Type :=
| TCPListener (addr : string)
| RateLimited (l : NetListener) (a b : Z)
| TLSListener (l : NetListener) (tlsConfig : option nat).

Section Listen.

(** [netListen] is [net.Listen] on a network and an address, [quote] is
    the verb [%q]; the three scheme constants are not among the sources. *)
Variable netListen : string → string → outcome NetListener.
Variable quote : string → string.
Variable HTTPScheme HTTPSScheme HTTP2Scheme : string.

(** [HTTPProxy.listen].  [addr], [readLimit] and [writeLimit] are the
    fields [Addr], [int64(ReadLimit)] and [int64(WriteLimit)] of the
    configuration, [tlsConfig] is [hp.TLSConfig].  The result is the
    listener or the error, and the listeners that were closed. *)
Definition listen (addr : string) (readLimit writeLimit : Z)
  (tlsConfig : option nat) (hp : HTTPProxy)
  : outcome NetListener * list NetListener :=
  match netListen "tcp" addr with
  | Ok l =>
      let listener :=
        if (readLimit >? 0) || (writeLimit >? 0)
        then RateLimited l writeLimit readLimit else l in
      if String.eqb (Protocol (config hp)) HTTPScheme then (Ok listener, [])
      else if String.eqb (Protocol (config hp)) HTTPSScheme
              || String.eqb (Protocol (config hp)) HTTP2Scheme
      then (Ok (TLSListener listener tlsConfig), [])
      else (Err ("invalid protocol " +:+ quote (Protocol (config hp))),
            [listener])
  | Err err =>
      (Err ("failed to open listener on address " +:+ addr +:+ ": " +:+ err), [])
  | Panic m => (Panic m, [])
  end.

End Listen.

(** [setEmptyUserAgent]: the request after the call and the error. *)
Definition setEmptyUserAgent (req : Request) : Request * option error :=
  match Header req !! "User-Agent" with
  | Some _ => (req, None)
  | None => (with_Header (HeaderSet (Header req) "User-Agent" "") req, None)
  end.

(** *** Aborting a request *)

(** What [abortIf] does to the outside: lines the HTTP logger passes to
    the log, errors reported with [Errorf], the response written to the
    hijacked buffer (and flushed), the response written to the hijacked
    response writer.  A written response carries its [Close] flag. *)
Inductive event : Type :=
| EvLog (lines : list string)
| EvErrorf (msg : string)
| EvWriteBuffer (brw : ReadWriter) (res : Response) (close : bool)
| EvWriteResponseWriter (w : ResponseWriter) (res : Response) (close : bool).

(** The logger [httplog.NewLogger(...).LogFunc()] as a request and
    response modifier: the lines it logs and the error it returns. *)
Record HTTPLogger : Type := mkHTTPLogger {
  ModifyRequest : Request → list string * option error;
  ModifyResponse : Response → list string * option error;
}.

Definition is_write (e : event) : bool :=
  match e with
  | EvWriteBuffer _ _ _ | EvWriteResponseWriter _ _ _ => true
  | EvLog _ | EvErrorf _ => false
  end.

Definition errorf (prefix : string) (e : option error) : list event :=
  match e with
  | Some err => [EvErrorf (prefix +:+ err)]
  | None => []
  end.

Section Abort.

(** [newLogger] builds the logger of a mode (it panics on an unknown
    mode), [isNotSupported] is [errors.Is(err, http.ErrNotSupported)],
    [flush] is the error of [brw.Flush()], [copyBody] the error of
    copying the body to the response writer. *)
Variable newLogger : Httplog.Mode → outcome HTTPLogger.
Variable isNotSupported : error → bool.
Variable flush : ReadWriter → option error.
Variable copyBody : ResponseWriter → Response → option error.

(** [HTTPProxy.writeErrorResponseToBuffer]. *)
Definition writeErrorResponseToBuffer (res : Response) (close : bool)
  (brw : ReadWriter) : list event :=
  EvWriteBuffer brw res close
  :: errorf "got error while flushing error response: " (flush brw).

(** The request modifier [abortIf] returns, on a request [req] whose
    context is [rctx], over the store of sessions; [ctl] is the answer of
    the response controller, should [Hijack] ask it.  The result is the
    error returned (nil is [None]) or the panic, the store afterwards and
    the events in order. *)
Definition abortIf (hp : HTTPProxy) (condition : Request → outcome bool)
  (response : Request → Response) (returnErr : error)
  (req : Request) (rctx : GoContext)
  (ctl : outcome (Conn * option ReadWriter)) (sessions : gmap nat Session)
  : outcome (option error) * gmap nat Session * list event :=
  match condition req with
  | Ok false => (Ok None, sessions, [])
  | Ok true =>
      match newLogger (LogHTTPMode (config hp)) with
      | Ok lf =>
          let '(l1, e1) := ModifyRequest lf req in
          let ev1 :=
            EvLog l1 :: errorf "got error while logging request: " e1 in
          let res := response req in
          let '(l2, e2) := ModifyResponse lf res in
          let ev2 :=
            (ev1 ++ EvLog l2
                 :: errorf "got error while logging response: " e2)%list in
          match FromContext rctx with
          | Ok (Some ctx) =>
              match sessions !! session ctx with
              | Some s =>
                  let '(r, s1) := Hijack ctl s in
                  let st1 := <[session ctx := s1]> sessions in
                  match r with
                  | Ok (_, Some brw) =>
                      (Ok (Some returnErr), st1,
                       (ev2 ++ writeErrorResponseToBuffer res true brw)%list)
                  | Ok (_, None) => (Panic "nil pointer dereference", st1, ev2)
                  | Err err =>
                      if isNotSupported err then
                        let '(r2, s2) := HijackResponseWriter s1 in
                        let st2 := <[session ctx := s2]> sessions in
                        match r2 with
                        | Ok w =>
                            (Ok (Some returnErr), st2,
                             (ev2 ++ EvWriteResponseWriter w res true
                                  :: errorf
                                       "got error while writing error response: "
                                       (copyBody w res))%list)
                        | Err err2 => (Panic err2, st2, ev2)
                        | Panic m => (Panic m, st2, ev2)
                        end
                      else (Panic err, st1, ev2)
                  | Panic m => (Panic m, st1, ev2)
                  end
              | None => (Panic "nil pointer dereference", sessions, ev2)
              end
          | Ok None => (Panic "nil pointer dereference", sessions, ev2)
          | Err err => (Panic err, sessions, ev2)
          | Panic m => (Panic m, sessions, ev2)
          end
      | Err err => (Panic err, sessions, [])
      | Panic m => (Panic m, sessions, [])
      end
  | Err err => (Panic err, sessions, [])
  | Panic m => (Panic m, sessions, [])
  end.

(** [errorResponse] and the two errors are not among the sources: the
    response the proxy builds for a request and an error. *)
Variable errorResponse : Request → error → Response.
Variable ErrProxyLocalhost ErrProxyDenied : error.

(** [HTTPProxy.denyLocalhost], over the classifier [isLocalhost]. *)
Definition denyLocalhost (hp : HTTPProxy) (isLocalhost : Request → outcome bool)
  := abortIf hp isLocalhost (fun req => errorResponse req ErrProxyLocalhost)
       "localhost access denied".

(** [HTTPProxy.denyDomains]. *)
Definition denyDomains (hp : HTTPProxy) (Hostname : URL → string)
  (r : RegexpMatcher) :=
  abortIf hp (fun req => Ok (r (Hostname (RURL req))))
    (fun req => errorResponse req ErrProxyDenied) "domain access denied".

End Abort.

(** *** Writing the error response to a response writer *)

(** What a response writer has received: the header map it will send,
    the status code once written, the body bytes. *)
Record Written : Type := mkWritten {
  wHeader : gmap string (list string);
  wStatus : option Z;
  wBody : string;
}.

Section ResponseWriter.

(** [canon] is [textproto.CanonicalMIMEHeaderKey]. *)
Variable canon : string → string.

(** [http.Header.Add]. *)
Definition HeaderAdd (h : gmap string (list string)) (key val : string)
  : gmap string (list string) :=
  <[canon key := (default [] (h !! canon key) ++ [val])%list]> h.

Definition addAll (h : gmap string (list string)) (k : string)
  (vv : list string) : gmap string (list string) :=
  foldl (fun h v => HeaderAdd h k v) h vv.

(** The values that a visit of [entries] adds under the canonical key
    [key], in the order of the visit. *)
Definition added (entries : list (string * list string)) (key : string)
  : list string :=
  concat (map (fun '(k, vv) => if decide (canon k = key) then vv else [])
            entries).

(** [http.ResponseWriter.WriteHeader]: the first status code written is
    the one sent. *)
Definition WriteHeader (code : Z) (w : Written) : Written :=
  match wStatus w with
  | Some _ => w
  | None => {| wHeader := wHeader w; wStatus := Some code; wBody := wBody w |}
  end.

(** [HTTPProxy.writeErrorResponseToResponseWriter]; [entries] is the
    order in which the [range] statement visits the header of the
    response, [copied] the part of the body that reaches the writer. *)
Definition writeErrorResponseToResponseWriter
  (entries : list (string * list string)) (res : Response) (close : bool)
  (copied : string) (w : Written) : Written :=
  let header :=
    foldl (fun h '(k, vv) => addAll h k vv) (wHeader w) entries in
  let header :=
    if close then <[canon "Connection" := ["close"]]> header else header in
  let w := WriteHeader (StatusCode res)
             {| wHeader := header; wStatus := wStatus w; wBody := wBody w |} in
  {| wHeader := wHeader w; wStatus := wStatus w; wBody := wBody w +:+ copied |}.

End ResponseWriter.

End ForwarderMore.

(** ** The e2e client: requests and expectations *)

Module HttpexpectMore.

Import Http Httpexpect.

(** [type Response struct]: the response and the body read from it. *)
Record Received : Type := mkReceived {
  RResponse : Response;
  body : string;
}.

Section Client.

(** [newRequest] is [http.NewRequestWithContext] on a method and a URL,
    with no body. *)
Variable newRequest : string → string → outcome Request.

(** [Client.request].  [t.Fatalf] ends the test: that is the [Panic]
    outcome, with the format of the message.  The body is read whole;
    reading a body that is a string does not fail. *)
Definition request (rt : RoundTripper) (baseURL : string) (method path : string)
  (opts : list (Request → Request)) : outcome Received :=
  match newRequest method (baseURL +:+ path) with
  | Ok req =>
      let req := foldl (fun r opt => opt r) req opts in
      match do rt req with
      | (_, Some err) => Panic "Failed to execute request %s, %s: %v"
      | (Some resp, None) => Ok {| RResponse := resp; body := Body resp |}
      | (None, None) => Panic "nil pointer dereference"
      end
  | Err err => Panic "Failed to create request %s, %s: %v"
  | Panic m => Panic m
  end.

Definition GET rt baseURL path opts := request rt baseURL "GET" path opts.
Definition HEAD rt baseURL path opts := request rt baseURL "HEAD" path opts.

End Client.

(** What a failed expectation does: the message names the method and the
    URL of the request of the response, so a response without a request
    panics before [t.Fatalf] is reached. *)
Definition fatal (format : string) (r : Received) : outcome Received :=
  match RespRequest (RResponse r) with
  | Some _ => Panic format
  | None => Panic "nil pointer dereference"
  end.

(** [Response.ExpectStatus] and its siblings: the response itself when
    the expectation holds, the end of the test otherwise.  [canon] is
    [textproto.CanonicalMIMEHeaderKey], which [Header.Get] applies to the
    key. *)
Definition ExpectStatus (status : Z) (r : Received) : outcome Received :=
  if negb (StatusCode (RResponse r) =? status)
  then fatal "%s, %s: expected status %d, got %d" r else Ok r.

Definition ExpectHeader (canon : string → string) (key value : string)
  (r : Received) : outcome Received :=
  if negb (String.eqb (HeaderGet (RespHeader (RResponse r)) (canon key)) value)
  then fatal "%s, %s: expected header %s to equal '%s', got '%s'" r else Ok r.

Definition ExpectBodySize (expectedSize : Z) (r : Received) : outcome Received :=
  if negb (Z.of_nat (String.length (body r)) =? expectedSize)
  then fatal "%s, %s: expected body size %d, got %d" r else Ok r.

Definition ExpectBodyContent (content : string) (r : Received) : outcome Received :=
  if negb (String.eqb (body r) content)
  then fatal "%s, %s: expected body to equal '%s', got '%s'" r else Ok r.

End HttpexpectMore.

(** ** More samples *)

Module Samples2.

Import Http.

(** A request that carries the trace of its context. *)
Definition with_Trace_sample : Request :=
  {| Method := "GET";
     RURL := {| Scheme := "http"; User := None; Host := "origin.test";
                Path := "/" |};
     Header := ∅; Trace := Some "2-362a007b" |}.

End Samples2.

(** * Properties *)

(** ** Formatting *)

Module FmtFacts.

Import Fmt.

Lemma all_digits_NilEmpty (d : Decimal.uint) :
  all_digits (DecimalString.NilEmpty.string_of_uint d) = true.
Proof. induction d; simpl; auto. Qed.

Lemma all_digits_fmt_d (z : Z) : all_digits (fmt_d z) = true.
Proof.
  unfold fmt_d, DecimalString.NilZero.string_of_uint.
  destruct (N.to_uint (Z.to_N z)) eqn:E; try reflexivity;
    rewrite <- E; apply all_digits_NilEmpty.
Qed.

Lemma to_uint_nonnil (k : N) : N.to_uint k ≠ Decimal.Nil.
Proof.
  destruct k as [|p]; simpl; [discriminate|].
  apply DecimalPos.Unsigned.to_uint_nonnil.
Qed.

(** [%d] prints different numbers differently. *)
Lemma fmt_d_inj (a b : Z) : 0 ≤ a → 0 ≤ b → fmt_d a = fmt_d b → a = b.
Proof.
  intros Ha Hb E. unfold fmt_d in E.
  assert (Some (N.to_uint (Z.to_N a)) = Some (N.to_uint (Z.to_N b))) as E'.
  { rewrite <- (DecimalString.NilZero.usu _ (to_uint_nonnil (Z.to_N a))).
    rewrite <- (DecimalString.NilZero.usu _ (to_uint_nonnil (Z.to_N b))).
    now rewrite E. }
  injection E' as E'. apply DecimalN.Unsigned.to_uint_inj in E'. lia.
Qed.

(** A digit string followed by a dash determines the digit string. *)
Lemma digits_dash_inj (a b x y : string) :
  all_digits a = true → all_digits b = true →
  a +:+ "-" +:+ x = b +:+ "-" +:+ y → a = b.
Proof.
  revert b. induction a as [|c a IH]; intros [|d b] Ha Hb E; simpl in *.
  - reflexivity.
  - injection E as E1 E2. subst d. discriminate Hb.
  - injection E as E1 E2. subst c. discriminate Ha.
  - injection E as E1 E2. subst d.
    apply andb_prop in Ha as [_ Ha]. apply andb_prop in Hb as [_ Hb].
    f_equal. now apply IH.
Qed.

End FmtFacts.

(** ** Sessions and contexts *)

Module MartianFacts.

Import Fmt Martian FmtFacts.

(** *** Hijacking *)

Lemma Hijack_ok_hijacked ctl s r s' :
  Hijack ctl s = (Ok r, s') → hijacked s' = true.
Proof.
  unfold Hijack. destruct (hijacked s); [discriminate|].
  destruct (conn s); [intros [= _ <-]; reflexivity|].
  destruct (rw s); [|discriminate].
  destruct ctl; intros [= ? <-]; reflexivity.
Qed.

Lemma HijackResponseWriter_ok_hijacked s w s' :
  HijackResponseWriter s = (Ok w, s') → hijacked s' = true.
Proof.
  unfold HijackResponseWriter. destruct (hijacked s); [discriminate|].
  destruct (rw s); [|discriminate]. intros [= _ <-]. reflexivity.
Qed.

Lemma exec_success_hijacked c s :
  hijack_succeeded (exec c s).1 = true → hijacked (exec c s).2 = true.
Proof.
  destruct c as [ctl| | | |k v]; simpl; try discriminate.
  - destruct (Hijack ctl s) as [r s'] eqn:E. simpl.
    destruct r; try discriminate. intros _. eapply Hijack_ok_hijacked, E.
  - destruct (HijackResponseWriter s) as [r s'] eqn:E. simpl.
    destruct r; try discriminate. intros _.
    eapply HijackResponseWriter_ok_hijacked, E.
Qed.

(** Once the flag is set, no method clears it and both hijack methods
    return the error. *)
Lemma exec_hijacked c s :
  hijacked s = true →
  refused c (exec c s).1 ∧ hijacked (exec c s).2 = true.
Proof.
  intros H. destruct c as [ctl| | | |k v]; simpl.
  - unfold Hijack. rewrite H. simpl. auto.
  - unfold HijackResponseWriter. rewrite H. simpl. auto.
  - auto.
  - auto.
  - auto.
Qed.

Lemma run_hijacked cs s :
  hijacked s = true →
  Forall2 refused cs (run cs s).1 ∧ hijacked (run cs s).2 = true.
Proof.
  revert s. induction cs as [|c cs IH]; intros s H; simpl.
  - split; [constructor | exact H].
  - destruct (exec_hijacked c s H) as [Hr Hs].
    destruct (exec c s) as [r s'] eqn:E. simpl in Hr, Hs.
    destruct (IH s' Hs) as [IH1 IH2]. destruct (run cs s') as [rs s''].
    simpl in *. split; [constructor; assumption | exact IH2].
Qed.

(** C8. After a call to [Hijack] or [HijackResponseWriter] has
    succeeded on a session, every later call to either of them on that
    session returns an error (the "already hijacked" one), whatever calls
    are made in between, and the session stays hijacked. *)
Theorem hijack_exclusive (s : Session) (c : call) (cs : list call) :
  hijack_succeeded (exec c s).1 = true →
  Forall2 refused cs (run cs (exec c s).2).1
  ∧ Hijacked (run cs (exec c s).2).2 = true.
Proof. intros H. apply run_hijacked, exec_success_hijacked, H. Qed.

Lemma hijack_exclusive_witness :
  Forall2 refused
    [CHijackResponseWriter; CMarkInsecure; CHijack (Ok (7%nat, None));
     CSet "k" "v"; CHijackResponseWriter]
    (run [CHijackResponseWriter; CMarkInsecure; CHijack (Ok (7%nat, None));
          CSet "k" "v"; CHijackResponseWriter]
       (exec (CHijack (Err "feature not supported"))
          (newSession 1%nat 2%nat)).2).1
  ∧ Hijacked
      (run [CHijackResponseWriter; CMarkInsecure; CHijack (Ok (7%nat, None));
            CSet "k" "v"; CHijackResponseWriter]
         (exec (CHijack (Err "feature not supported"))
            (newSession 1%nat 2%nat)).2).2 = true.
Proof.
  apply (hijack_exclusive (newSession 1%nat 2%nat)
           (CHijack (Err "feature not supported"))).
  reflexivity.
Defined.

(** The same run, evaluated. *)
Example hijack_then_refused :
  (run [CHijack (Err "feature not supported"); CHijackResponseWriter;
        CMarkInsecure; CHijack (Ok (7%nat, None))]
     (newSession 1%nat 2%nat)).1
  = [RHijack (Ok (1%nat, Some 2%nat));
     RHijackResponseWriter (Err errAlreadyHijacked); RUnit;
     RHijack (Err errAlreadyHijacked)].
Proof. reflexivity. Qed.

(** On a session backed by a response writer: the hijack of the
    connection is not supported, the response writer is then hijacked,
    and from there on both methods fail. *)
Example response_writer_hijacked_once :
  (run [CHijack (Err "feature not supported"); CHijackResponseWriter;
        CHijack (Ok (3%nat, None)); CHijackResponseWriter]
     (newSessionWithResponseWriter 5%nat)).1
  = [RHijack (Err "feature not supported"); RHijackResponseWriter (Ok 5%nat);
     RHijack (Err errAlreadyHijacked);
     RHijackResponseWriter (Err errAlreadyHijacked)].
Proof. reflexivity. Qed.

(** *** Context ids *)

Lemma create_lookup (reqs : list (nat * Z)) (p : Process) (i : nat) (c : Context) :
  create reqs p !! i = Some c →
  ∃ s now, reqs !! i = Some (s, now) ∧ session c = s ∧
           n c = uint64 (nextID p + Z.of_nat i + 1) ∧ hash c = uint32 now.
Proof.
  revert p i. induction reqs as [|[s now] reqs IH]; intros p i; simpl.
  - destruct i; discriminate.
  - destruct i as [|i]; simpl.
    + intros [= <-]. exists s, now. simpl.
      repeat split. f_equal. lia.
    + intros H. apply IH in H as (s' & now' & H1 & H2 & H3 & H4).
      exists s', now'. repeat split; try assumption.
      rewrite H3. simpl. unfold uint64.
      rewrite <- Z.add_assoc, Zplus_mod_idemp_l. f_equal. lia.
Qed.

Lemma create_length (reqs : list (nat * Z)) (p : Process) :
  length (create reqs p) = length reqs.
Proof.
  revert p. induction reqs as [|[s now] reqs IH]; intros p; simpl; [reflexivity|].
  now rewrite IH.
Qed.

Lemma create_lookup_start (reqs : list (nat * Z)) (i : nat) (c : Context) :
  Z.of_nat (length reqs) < 2 ^ 64 →
  create reqs start !! i = Some c →
  ∃ s now, reqs !! i = Some (s, now) ∧ session c = s ∧
           n c = Z.of_nat i + 1 ∧ hash c = now `mod` 2 ^ 32.
Proof.
  intros Hlen H.
  destruct (create_lookup _ _ _ _ H) as (s & now & H1 & H2 & H3 & H4).
  exists s, now. repeat split; try assumption.
  apply lookup_lt_Some in H1.
  rewrite H3. unfold uint64. simpl. apply Z.mod_small. lia.
Qed.

Lemma ID_inj_n (c1 c2 : Context) :
  0 ≤ n c1 → 0 ≤ n c2 → ID c1 = ID c2 → n c1 = n c2.
Proof.
  intros H1 H2 E. unfold ID in E.
  apply fmt_d_inj; try assumption.
  eapply digits_dash_inj; [apply all_digits_fmt_d | apply all_digits_fmt_d | exact E].
Qed.

(** Two contexts whose positions in the creation order are less than
    2^64 apart have different counter values, from any state of the
    counter. *)
Lemma counters_differ (reqs : list (nat * Z)) (p : Process) (i j : nat)
  (ci cj : Context) :
  create reqs p !! i = Some ci → create reqs p !! j = Some cj →
  i ≠ j → Z.abs (Z.of_nat i - Z.of_nat j) < 2 ^ 64 →
  n ci ≠ n cj.
Proof.
  intros Hi Hj Hne Hd E.
  destruct (create_lookup _ _ _ _ Hi) as (_ & _ & _ & _ & Hni & _).
  destruct (create_lookup _ _ _ _ Hj) as (_ & _ & _ & _ & Hnj & _).
  rewrite Hni, Hnj in E. unfold uint64 in E.
  assert ((Z.of_nat i - Z.of_nat j) `mod` 2 ^ 64 = 0) as Hm.
  { replace (Z.of_nat i - Z.of_nat j)
      with ((nextID p + Z.of_nat i + 1) - (nextID p + Z.of_nat j + 1)) by lia.
    rewrite Zminus_mod, E, Z.sub_diag. reflexivity. }
  apply Z.mod_divide in Hm; [|lia]. destruct Hm as [k Hk].
  assert (k = 0) by nia. lia.
Qed.

Lemma ids_differ_within_range (reqs : list (nat * Z)) (p : Process)
  (i j : nat) (ci cj : Context) :
  create reqs p !! i = Some ci → create reqs p !! j = Some cj →
  i ≠ j → Z.abs (Z.of_nat i - Z.of_nat j) < 2 ^ 64 →
  ID ci ≠ ID cj.
Proof.
  intros Hi Hj Hne Hd E.
  apply (counters_differ _ _ _ _ _ _ Hi Hj Hne Hd).
  destruct (create_lookup _ _ _ _ Hi) as (_ & _ & _ & _ & Hni & _).
  destruct (create_lookup _ _ _ _ Hj) as (_ & _ & _ & _ & Hnj & _).
  apply ID_inj_n; [| |exact E].
  - rewrite Hni. apply Z.mod_pos_bound. reflexivity.
  - rewrite Hnj. apply Z.mod_pos_bound. reflexivity.
Qed.

(** C6. The ids of the contexts created in one process are pairwise
    distinct: two contexts created at different positions of the
    creation order have different [ID()] strings.  The process creates
    fewer than 2^64 contexts, the range of its counter. *)
Theorem context_ids_pairwise_distinct
  (reqs : list (nat * Z)) (i j : nat) (ci cj : Context) :
  Z.of_nat (length reqs) < 2 ^ 64 →
  create reqs start !! i = Some ci →
  create reqs start !! j = Some cj →
  i ≠ j →
  ID ci ≠ ID cj.
Proof.
  intros Hlen Hi Hj Hne E.
  destruct (create_lookup_start _ _ _ Hlen Hi) as (_ & _ & _ & _ & Hni & _).
  destruct (create_lookup_start _ _ _ Hlen Hj) as (_ & _ & _ & _ & Hnj & _).
  apply ID_inj_n in E; lia.
Qed.

Lemma context_ids_pairwise_distinct_witness :
  ID {| session := 1%nat; n := 1; hash := 908722176; vals := ∅;
        skipRoundTrip := false |}
  ≠ ID {| session := 2%nat; n := 3; hash := 908722176; vals := ∅;
          skipRoundTrip := false |}.
Proof.
  apply (context_ids_pairwise_distinct
           [(1%nat, 1700000000000000000); (1%nat, 1700000000000000123);
            (2%nat, 1700000000000000000)] 0%nat 2%nat).
  - reflexivity.
  - reflexivity.
  - reflexivity.
  - discriminate.
Defined.

(** The ids of two contexts created 123 ns apart. *)
Example ids_of_two_contexts :
  map ID (create [(1%nat, 1700000000000000000);
                  (1%nat, 1700000000000000123)] start)
  = ["1-362a0000"; "2-362a007b"].
Proof. reflexivity. Qed.

(** C7, as the claim states it, fails: two contexts of one process
    created at different clock readings carry different 32-bit
    components. *)
Lemma salt_differs_between_contexts :
  ¬ same_salt (create [(1%nat, 1700000000000000000);
                       (1%nat, 1700000000000000123)] start).
Proof.
  intros H.
  specialize (H {| session := 1%nat; n := 1; hash := 908722176; vals := ∅;
                   skipRoundTrip := false |}
                {| session := 1%nat; n := 2; hash := 908722299; vals := ∅;
                   skipRoundTrip := false |}).
  assert (908722176 = 908722299) as E; [|discriminate E].
  apply H; simpl; [left | right; left].
Qed.

(** C7, amended. Every context id is the decimal counter value, a dash
    and the eight-digit hexadecimal form of a 32-bit value; the counter
    value of the i-th context created is i, so it increases strictly
    with the creation order, and the 32-bit value is the low 32 bits of
    the nanosecond clock read when that context is created. *)
Theorem context_id_counter_and_clock (reqs : list (nat * Z)) :
  Z.of_nat (length reqs) < 2 ^ 64 →
  (∀ i c, create reqs start !! i = Some c →
     ∃ s now, reqs !! i = Some (s, now) ∧
       n c = Z.of_nat i + 1 ∧
       hash c = now `mod` 2 ^ 32 ∧ 0 ≤ hash c < 2 ^ 32 ∧
       ID c = fmt_d (Z.of_nat i + 1) +:+ "-" +:+ fmt_08x (now `mod` 2 ^ 32))
  ∧ (∀ i j ci cj, create reqs start !! i = Some ci →
       create reqs start !! j = Some cj → (i < j)%nat → n ci < n cj).
Proof.
  intros Hlen. split.
  - intros i c H.
    destruct (create_lookup_start _ _ _ Hlen H) as (s & now & H1 & _ & H3 & H4).
    exists s, now. repeat split; try assumption.
    + rewrite H4. apply Z.mod_pos_bound. lia.
    + rewrite H4. apply Z.mod_pos_bound. lia.
    + unfold ID. now rewrite H3, H4.
  - intros i j ci cj Hi Hj Hlt.
    destruct (create_lookup_start _ _ _ Hlen Hi) as (_ & _ & _ & _ & Hni & _).
    destruct (create_lookup_start _ _ _ Hlen Hj) as (_ & _ & _ & _ & Hnj & _).
    lia.
Qed.

Lemma context_id_counter_and_clock_witness :
  ∃ s now, [(1%nat, 1700000000000000000); (1%nat, 1700000000000000123)] !! 1%nat
           = Some (s, now) ∧
    n {| session := 1%nat; n := 2; hash := 908722299; vals := ∅;
         skipRoundTrip := false |} = Z.of_nat 1 + 1 ∧
    hash {| session := 1%nat; n := 2; hash := 908722299; vals := ∅;
            skipRoundTrip := false |} = now `mod` 2 ^ 32 ∧
    0 ≤ 908722299 < 2 ^ 32 ∧
    ID {| session := 1%nat; n := 2; hash := 908722299; vals := ∅;
          skipRoundTrip := false |}
    = fmt_d (Z.of_nat 1 + 1) +:+ "-" +:+ fmt_08x (now `mod` 2 ^ 32).
Proof.
  assert (Z.of_nat (length [(1%nat, 1700000000000000000);
                            (1%nat, 1700000000000000123)]) < 2 ^ 64) as Hlen
    by reflexivity.
  destruct (context_id_counter_and_clock _ Hlen) as [H _].
  apply (H 1%nat). reflexivity.
Defined.

End MartianFacts.

(** ** The HTTP logger *)

Module HttplogFacts.

Import Http Httplog.

Section Logger.

Context (Redacted : Http.URL → string) (fmt_v fmt_s : Z → string)
  (snapshotRequest : bool → Request → string * option Result.error)
  (snapshotResponse : bool → Response → string * option Result.error).

Local Abbreviation LogFunc :=
  (LogFunc Redacted fmt_v fmt_s snapshotRequest snapshotResponse).

(** The modes that always log pass exactly one message per exchange. *)
Lemma short_url_mode_always_logs :
  ∃ f, LogFunc ShortURL = Ok f ∧ ∀ e, length (f e) = 1%nat.
Proof. eexists. split; [reflexivity|]. intros e. reflexivity. Qed.

Lemma none_mode_never_logs :
  ∃ f, LogFunc None = Ok f ∧ ∀ e, f e = [].
Proof. eexists. split; [reflexivity|]. intros e. reflexivity. Qed.

(** C9. In mode "errors" the logger emits output for an exchange
    exactly when the status of the exchange is at least 500: below
    500 nothing is passed to the log function, from 500 on exactly
    one message (the full dump) is. *)
Theorem errors_mode_logs_iff_5xx :
  ∃ f, LogFunc Errors = Ok f ∧
       ∀ e, (f e ≠ [] ↔ 500 ≤ EStatus e) ∧
            (EStatus e < 500 ↔ f e = []) ∧
            (500 ≤ EStatus e ↔ ∃ msg, f e = [msg]).
Proof.
  eexists. split; [reflexivity|]. intros e. cbv beta.
  unfold StatusInternalServerError.
  destruct (Z.ltb_spec (EStatus e) 500) as [Hlt|Hge].
  - split; [|split].
    + split; [intros H; now contradict H | lia].
    + split; [reflexivity | intros _; exact Hlt].
    + split; [lia | intros [msg H]; discriminate H].
  - split; [|split].
    + split; [intros _; exact Hge | discriminate].
    + split; [lia | discriminate].
    + split; [intros _; eexists; reflexivity | intros _; exact Hge].
Qed.

End Logger.

End HttplogFacts.

(** ** The e2e client *)

Module HttpexpectFacts.

Import Http Httpexpect.

(** [scan] returns the first code of its range whose phrase is the
    message. *)
Lemma scan_first (k : nat) (i : Z) (msg : string) (j : Z) :
  scan k i msg = Some j →
  i ≤ j < i + Z.of_nat k ∧ msg = StatusText j ∧
  ∀ j', i ≤ j' < j → msg ≠ StatusText j'.
Proof.
  revert i. induction k as [|k IH]; intros i; simpl; [discriminate|].
  destruct (String.eqb_spec msg (StatusText i)) as [E|E].
  - intros [= <-]. repeat split; try lia. exact E.
  - intros H. apply IH in H as (H1 & H2 & H3).
    repeat split; try lia; try assumption.
    intros j' Hj'. destruct (decide (j' = i)) as [->|Hne]; [exact E|].
    apply H3. lia.
Qed.

Lemma scan_none (k : nat) (i : Z) (msg : string) :
  scan k i msg = None → ∀ j, i ≤ j < i + Z.of_nat k → msg ≠ StatusText j.
Proof.
  revert i. induction k as [|k IH]; intros i; simpl; [intros; lia|].
  destruct (String.eqb_spec msg (StatusText i)) as [E|E]; [discriminate|].
  intros H j Hj. destruct (decide (j = i)) as [->|Hne]; [exact E|].
  apply (IH _ H). lia.
Qed.

(** The phrases of the registered codes of 400..599 are pairwise
    distinct, so each of them is found at its own code. *)
Lemma scan_table :
  forallb (λ c, String.eqb (StatusText c) ""
                || match scan 200 400 (StatusText c) with
                   | Some j => j =? c
                   | None => false
                   end) (seqZ 400 200) = true.
Proof. vm_compute. reflexivity. Qed.

Lemma scan_phrase (c : Z) :
  400 ≤ c < 600 → StatusText c ≠ "" → scan 200 400 (StatusText c) = Some c.
Proof.
  intros Hc Hne.
  assert (In c (seqZ 400 200)) as Hin.
  { apply list_elem_of_In, elem_of_seqZ. lia. }
  pose proof (proj1 (forallb_forall _ _) scan_table c Hin) as H.
  cbv beta in H. apply orb_prop in H as [H|H].
  - apply String.eqb_eq in H. contradiction.
  - destruct (scan 200 400 (StatusText c)) as [j|]; [|discriminate].
    apply Z.eqb_eq in H. now subst.
Qed.

(** C1. For an https request whose round trip fails with an error
    whose text is the standard status phrase of a code in 400..599,
    [do] returns no error and a synthesized response with exactly that
    code: its phrase as status, HTTP/1.1, no headers, an empty body. *)
Theorem do_synthesizes_status
  (rt : RoundTripper) (req : Request) (resp : option Response) (c : Z) :
  Scheme (RURL req) = "https" →
  400 ≤ c < 600 →
  StatusText c ≠ "" →
  rt req = (resp, Some (StatusText c)) →
  do rt req =
    (Some {| StatusCode := c; Status := StatusText c;
             ProtoMajor := 1; ProtoMinor := 1;
             RespHeader := ∅; Body := ""; RespRequest := Some req |},
     None).
Proof.
  intros Hs Hc Hne Hrt. unfold do. rewrite Hrt, Hs. simpl String.eqb.
  rewrite (scan_phrase c Hc Hne). reflexivity.
Qed.

Lemma do_synthesizes_status_witness :
  do (λ _, (None, Some "Service Unavailable"))
     (Samples.get "https" "example.com:443" "/") =
    (Some {| StatusCode := 503; Status := "Service Unavailable";
             ProtoMajor := 1; ProtoMinor := 1;
             RespHeader := ∅; Body := "";
             RespRequest := Some (Samples.get "https" "example.com:443" "/") |},
     None).
Proof.
  apply (do_synthesizes_status (λ _, (None, Some "Service Unavailable"))
           (Samples.get "https" "example.com:443" "/") None 503).
  - reflexivity.
  - lia.
  - discriminate.
  - reflexivity.
Defined.

(** An error with an empty text meets the first code without a
    registered phrase. *)
Example do_empty_error_text :
  do (λ _, (None, Some "")) (Samples.get "https" "example.com:443" "/")
  = (Some (synthesized 419 (Samples.get "https" "example.com:443" "/")), None).
Proof. reflexivity. Qed.

(** Other failures are passed on unchanged: plain http requests, and
    errors whose text is no status phrase of 400..599. *)
Lemma do_passes_other_errors (rt : RoundTripper) (req : Request)
  (resp : option Response) (e : error) :
  rt req = (resp, Some e) →
  Scheme (RURL req) ≠ "https" ∨ (∀ j, 400 ≤ j < 600 → e ≠ StatusText j) →
  do rt req = (resp, Some e).
Proof.
  intros Hrt H. unfold do. rewrite Hrt.
  destruct (String.eqb_spec (Scheme (RURL req)) "https") as [Hs|Hs];
    [|reflexivity].
  destruct H as [H|H]; [contradiction|].
  destruct (scan 200 400 e) as [j|] eqn:E; [|reflexivity].
  apply scan_first in E as (Hj & He & _). exfalso. apply (H j); [lia|exact He].
Qed.

End HttpexpectFacts.

(** ** The proxy: upstream selection, construction, classification *)

Module ForwarderFacts.

Import Http Forwarder.

(** The URL a selected proxy URL becomes once the matcher was asked. *)
Lemma upstreamProxyURL_no_user (hp : HTTPProxy) (up : URL) :
  User up = None →
  upstreamProxyURL hp up =
    match creds hp (Some up) with
    | Some u => with_User (Some u) up
    | None => up
    end.
Proof. intros H. unfold upstreamProxyURL. now rewrite H. Qed.

Lemma upstreamProxyURL_user (hp : HTTPProxy) (up : URL) (ui : Userinfo) :
  User up = Some ui → upstreamProxyURL hp up = up.
Proof. intros H. unfold upstreamProxyURL. now rewrite H. Qed.

Lemma Pac_URL_no_user (scheme : Pac.Mode → string) (p : Pac.Proxy) (x : URL) :
  Pac.URL scheme p = Some x → User x = None.
Proof.
  unfold Pac.URL. destruct (Pac.PMode p); [discriminate|..];
    intros [= <-]; reflexivity.
Qed.

Section Selection.

Context (newMartianMITMConfig : MITMConfig → outcome MartianMITM)
  (Hostname : URL → string) (First : string → outcome Pac.Proxy)
  (scheme : Pac.Mode → string)
  (LookupHost : string → outcome (list string))
  (ParseIP : string → option IP).

Local Abbreviation pacProxy := (pacProxy First scheme).
Local Abbreviation selectProxyFunc := (selectProxyFunc First scheme).
Local Abbreviation configureProxy :=
  (configureProxy newMartianMITMConfig Hostname First scheme LookupHost ParseIP).

(** C3. When the static upstream URL or the PAC answer is the source
    of the proxy URL and that URL carries no user-info, the matcher is
    asked with that URL and its answer, if any, becomes the user-info
    of the URL; a URL that carries user-info is used as it is (a PAC
    candidate never carries any). *)
Theorem selected_proxy_gets_credentials (hp : HTTPProxy) :
  UpstreamProxyFunc (config hp) = None →
  (∀ up, UpstreamProxy (config hp) = Some up →
     ∃ f, selectProxyFunc hp = Some f ∧
       ∀ r, f r = Ok (Some
              match User up with
              | Some _ => up
              | None =>
                  match creds hp (Some up) with
                  | Some u => with_User (Some u) up
                  | None => up
                  end
              end))
  ∧ (∀ pr, UpstreamProxy (config hp) = None → pac hp = Some pr →
       ∃ f, selectProxyFunc hp = Some f ∧
         ∀ r s p x, pr (RURL r) "" = Ok s → First s = Ok p →
           Pac.URL scheme p = Some x →
           User x = None ∧
           f r = Ok (Some
                  match creds hp (Some x) with
                  | Some u => with_User (Some u) x
                  | None => x
                  end)).
Proof.
  intros Hf. split.
  - intros up Hup. eexists. split.
    + unfold Forwarder.selectProxyFunc. rewrite Hf, Hup. reflexivity.
    + intros r. unfold ProxyURL, upstreamProxyURL.
      destruct (User up); [reflexivity|].
      destruct (creds hp (Some up)); reflexivity.
  - intros pr Hup Hpac. eexists. split.
    + unfold Forwarder.selectProxyFunc. rewrite Hf, Hup, Hpac. reflexivity.
    + intros r s p x Hs Hp Hx. split; [eapply Pac_URL_no_user, Hx|].
      unfold Forwarder.pacProxy. rewrite Hs, Hp, Hx.
      destruct (creds hp (Some x)); reflexivity.
Qed.

(** The wrappers keep DIRECT: without a source there is nothing to
    wrap. *)
Lemma wrappers_keep_direct (hp hp' : HTTPProxy) :
  configureProxy hp = Ok hp' → selectProxyFunc hp = None →
  proxyFunc hp' = None.
Proof.
  unfold Forwarder.configureProxy. intros H Hsel. rewrite Hsel in H.
  destruct (MITM (config hp)) as [mc|];
    [destruct (newMartianMITMConfig mc); try discriminate|];
    injection H as <-; simpl;
    destruct (DirectDomains (config hp)); simpl;
    destruct (String.eqb _ _); reflexivity.
Qed.

Lemma unwrapped_is_selected (hp hp' : HTTPProxy) :
  configureProxy hp = Ok hp' →
  DirectDomains (config hp) = None →
  ProxyLocalhost (config hp) ≠ DirectProxyLocalhost →
  proxyFunc hp' = selectProxyFunc hp.
Proof.
  unfold Forwarder.configureProxy. intros H Hdd Hpl. rewrite Hdd in H.
  apply String.eqb_neq in Hpl. rewrite Hpl in H.
  destruct (MITM (config hp)) as [mc|];
    [destruct (newMartianMITMConfig mc); try discriminate|];
    injection H as <-; reflexivity.
Qed.

(** C4. The upstream source is the first applicable one of: the
    custom function, the static upstream URL, the PAC resolver, and
    otherwise none (DIRECT); it is the function the configured proxy
    uses, under the direct-domains and direct-localhost wrappers when
    these are configured. *)
Theorem upstream_selection_priority (hp : HTTPProxy) :
  (∀ f, UpstreamProxyFunc (config hp) = Some f →
     selectProxyFunc hp = Some f)
  ∧ (∀ up, UpstreamProxyFunc (config hp) = None →
       UpstreamProxy (config hp) = Some up →
       selectProxyFunc hp = Some (ProxyURL (upstreamProxyURL hp up)))
  ∧ (∀ pr, UpstreamProxyFunc (config hp) = None →
       UpstreamProxy (config hp) = None → pac hp = Some pr →
       selectProxyFunc hp = Some (pacProxy hp pr))
  ∧ (UpstreamProxyFunc (config hp) = None →
     UpstreamProxy (config hp) = None → pac hp = None →
     selectProxyFunc hp = None)
  ∧ (∀ hp', configureProxy hp = Ok hp' →
       (DirectDomains (config hp) = None →
        ProxyLocalhost (config hp) ≠ DirectProxyLocalhost →
        proxyFunc hp' = selectProxyFunc hp)
       ∧ (selectProxyFunc hp = None → proxyFunc hp' = None)).
Proof.
  split; [|split; [|split; [|split]]].
  - unfold Forwarder.selectProxyFunc. intros f ->. reflexivity.
  - unfold Forwarder.selectProxyFunc. intros up -> ->. reflexivity.
  - unfold Forwarder.selectProxyFunc. intros pr -> -> ->. reflexivity.
  - unfold Forwarder.selectProxyFunc. intros -> -> ->. reflexivity.
  - intros hp' H. split.
    + now apply unwrapped_is_selected.
    + now apply wrappers_keep_direct.
Qed.

End Selection.

Section Construction.

Context (HTTPScheme HTTPSScheme : string)
  (ServerValidate : HTTPProxyConfig → option error)
  (validateProxyURL : option URL → option error)
  (newMartianMITMConfig : MITMConfig → outcome MartianMITM)
  (Hostname : URL → string) (First : string → outcome Pac.Proxy)
  (scheme : Pac.Mode → string)
  (LookupHost : string → outcome (list string))
  (ParseIP : string → option IP)
  (configureHTTPS : HTTPProxy → option error)
  (listen : HTTPProxy → outcome Listener).

Local Abbreviation Validate :=
  (Validate HTTPScheme HTTPSScheme ServerValidate validateProxyURL).
Local Abbreviation configureProxy :=
  (configureProxy newMartianMITMConfig Hostname First scheme LookupHost ParseIP).
Local Abbreviation newHTTPProxy :=
  (newHTTPProxy HTTPScheme HTTPSScheme ServerValidate validateProxyURL
     newMartianMITMConfig Hostname First scheme LookupHost ParseIP).
Local Abbreviation NewHTTPProxy :=
  (NewHTTPProxy HTTPScheme HTTPSScheme ServerValidate validateProxyURL
     newMartianMITMConfig Hostname First scheme LookupHost ParseIP
     configureHTTPS listen).
Local Abbreviation NewHTTPProxyHandler :=
  (NewHTTPProxyHandler HTTPScheme HTTPSScheme ServerValidate validateProxyURL
     newMartianMITMConfig Hostname First scheme LookupHost ParseIP).




End Construction.

Section BasicAuth.

Context (basicAuth : string → string → string).

Local Abbreviation setBasicAuth := (setBasicAuth basicAuth).

(** C10. [setBasicAuth] leaves a request whose Authorization header
    is non-empty as it is; on a request without that header it sets
    the basic-auth credentials when, and only when, the matcher
    matches the request URL; it always returns a nil error. *)
Theorem setBasicAuth_frame (hp : HTTPProxy) (req : Request) :
  (HeaderGet (Header req) "Authorization" ≠ "" →
     setBasicAuth hp req = (req, None))
  ∧ (Header req !! "Authorization" = None →
       (∀ u, creds hp (Some (RURL req)) = Some u →
          setBasicAuth hp req =
            (with_Header
               (<["Authorization" :=
                    ["Basic " +:+ basicAuth (username u) (password u)]]>
                  (Header req)) req, None))
       ∧ (creds hp (Some (RURL req)) = None →
            setBasicAuth hp req = (req, None)))
  ∧ (setBasicAuth hp req).2 = None.
Proof.
  unfold Forwarder.setBasicAuth. split; [|split].
  - intros H. apply String.eqb_neq in H. now rewrite H.
  - intros H. unfold HeaderGet. rewrite H. simpl. split.
    + intros u ->. reflexivity.
    + intros ->. reflexivity.
  - destruct (String.eqb _ _); [|reflexivity].
    destruct (creds hp _); reflexivity.
Qed.

End BasicAuth.

Section Localhost.

Context (Hostname : URL → string) (ParseIP : string → option IP).

Local Abbreviation lookup := (ResolverLookupHost ParseIP nopResolver).

(** The resolver that never dials answers from the local data only. *)
Lemma nopResolver_local (net : Network) (h : string) :
  lookup net h =
    match localLookup ParseIP net h with
    | [] => if String.eqb h "" then Err "no such host" else Err "no dial"
    | addrs => Ok addrs
    end.
Proof.
  unfold ResolverLookupHost, localLookup.
  destruct (String.eqb h ""); [reflexivity|].
  destruct (ParseIP h); [reflexivity|].
  destruct (hostsFile net h); reflexivity.
Qed.

Lemma isLocalhostName_first (net : Network) (h : string) :
  isLocalhostName (lookup net) ParseIP h = Ok true ↔
  first_isLocalhost ParseIP (localLookup ParseIP net h) h.
Proof.
  unfold isLocalhostName, first_isLocalhost. rewrite nopResolver_local.
  destruct (String.eqb_spec h "localhost") as [E|E].
  { split; [intros _; left; exact E | reflexivity]. }
  destruct (localLookup ParseIP net h) as [|a rest].
  - split.
    + destruct (String.eqb h ""); discriminate.
    + intros [?|(a & rest & ip & H & _)]; [contradiction | discriminate].
  - destruct (ParseIP a) as [ip|] eqn:Ea.
    + split.
      * intros [= H]. right. exists a, rest, ip. auto.
      * intros [?|(a' & rest' & ip' & [= <- <-] & Hp & Hl)]; [contradiction|].
        rewrite Ea in Hp. injection Hp as <-. now rewrite Hl.
    + split; [discriminate|].
      intros [?|(a' & rest' & ip' & [= <- <-] & Hp & _)]; [contradiction|].
      rewrite Ea in Hp. discriminate.
Qed.

Lemma isLocalhostName_returns (net : Network) (h : string) :
  ∃ b, isLocalhostName (lookup net) ParseIP h = Ok b.
Proof.
  unfold isLocalhostName. rewrite nopResolver_local.
  destruct (String.eqb h "localhost"); [eauto|].
  destruct (localLookup ParseIP net h) as [|a rest].
  - destruct (String.eqb h ""); eauto.
  - destruct (ParseIP a); eauto.
Qed.

(** C2, amended. With the resolver that never dials, [isLocalhost]
    always returns, and it returns true exactly when the hostname of
    the request URL is "localhost" or the first address of the local
    answer for it (the literal itself, or the hosts-file entries) is an
    IP that is a loopback address.  What public DNS would answer has
    no part in it: a name that is not "localhost", not an IP literal
    and not in the hosts file is never classified localhost. *)
Theorem isLocalhost_first_local_address (net : Network) (req : Request) :
  (isLocalhost Hostname (lookup net) ParseIP req = Ok true ↔
   first_isLocalhost ParseIP
     (localLookup ParseIP net (Hostname (RURL req))) (Hostname (RURL req)))
  ∧ (∃ b, isLocalhost Hostname (lookup net) ParseIP req = Ok b)
  ∧ (∀ dns,
       isLocalhost Hostname
         (lookup {| hostsFile := hostsFile net; nameserver := nameserver net;
                    publicDNS := dns |}) ParseIP req
       = isLocalhost Hostname (lookup net) ParseIP req)
  ∧ (Hostname (RURL req) ≠ "localhost" →
     ParseIP (Hostname (RURL req)) = None →
     hostsFile net (Hostname (RURL req)) = [] →
     isLocalhost Hostname (lookup net) ParseIP req = Ok false).
Proof.
  unfold isLocalhost. split; [|split; [|split]].
  - apply isLocalhostName_first.
  - apply isLocalhostName_returns.
  - intros dns. unfold isLocalhostName. rewrite !nopResolver_local.
    reflexivity.
  - intros Hn Hp Hh. unfold isLocalhostName. rewrite nopResolver_local.
    apply String.eqb_neq in Hn. rewrite Hn.
    unfold localLookup. rewrite Hp, Hh.
    destruct (String.eqb _ ""); reflexivity.
Qed.

End Localhost.

(** *** The properties on the sample configurations *)

Import Samples.

Lemma selected_proxy_gets_credentials_witness :
  (∃ f, selectProxyFunc pacFirst pacScheme
          (proxyOf (with_upstream (Some upstream) None baseConfig) None credentials)
        = Some f ∧
        ∀ r, f r = Ok (Some (with_User (Some alice) upstream)))
  ∧ (∃ f, selectProxyFunc pacFirst pacScheme
            (proxyOf (with_upstream (Some upstreamWithUser) None baseConfig)
               None credentials)
          = Some f ∧
          ∀ r, f r = Ok (Some upstreamWithUser))
  ∧ (∃ f, selectProxyFunc pacFirst pacScheme
            (proxyOf baseConfig (Some pacScript) credentials) = Some f ∧
          f (get "http" "origin.test" "/") =
            Ok (Some {| Scheme := "http"; User := Some alice;
                        Host := "p1:8080"; Path := "" |})).
Proof.
  split; [|split].
  - destruct (selected_proxy_gets_credentials pacFirst pacScheme
                (proxyOf (with_upstream (Some upstream) None baseConfig)
                   None credentials) eq_refl) as [H _].
    destruct (H upstream eq_refl) as (f & Hf & Hr).
    exists f. split; [exact Hf | exact Hr].
  - destruct (selected_proxy_gets_credentials pacFirst pacScheme
                (proxyOf (with_upstream (Some upstreamWithUser) None baseConfig)
                   None credentials) eq_refl) as [H _].
    destruct (H upstreamWithUser eq_refl) as (f & Hf & Hr).
    exists f. split; [exact Hf | exact Hr].
  - destruct (selected_proxy_gets_credentials pacFirst pacScheme
                (proxyOf baseConfig (Some pacScript) credentials) eq_refl)
      as [_ H].
    destruct (H pacScript eq_refl eq_refl) as (f & Hf & Hr).
    exists f. split; [exact Hf|].
    exact (proj2 (Hr (get "http" "origin.test" "/") "PROXY p1:8080; DIRECT"
                    {| Pac.PMode := Pac.PROXY; Pac.PHost := "p1";
                       Pac.PPort := "8080" |}
                    {| Scheme := "http"; User := None; Host := "p1:8080";
                       Path := "" |} eq_refl eq_refl eq_refl)).
Defined.

Lemma upstream_selection_priority_witness :
  selectProxyFunc pacFirst pacScheme
    (proxyOf (with_upstream (Some upstream) (Some (λ _, Ok None)) baseConfig)
       (Some pacScript) credentials)
  = Some (λ _, Ok None)
  ∧ selectProxyFunc pacFirst pacScheme
      (proxyOf (with_upstream (Some upstream) None baseConfig)
         (Some pacScript) noCredentials)
    = Some (ProxyURL upstream)
  ∧ selectProxyFunc pacFirst pacScheme
      (proxyOf baseConfig (Some pacScript) noCredentials)
    = Some (pacProxy pacFirst pacScheme
              (proxyOf baseConfig (Some pacScript) noCredentials) pacScript)
  ∧ selectProxyFunc pacFirst pacScheme (proxyOf baseConfig None noCredentials)
    = None.
Proof.
  split; [|split; [|split]].
  - destruct (upstream_selection_priority mitmConfig hostname pacFirst
                pacScheme (λ _, Err "no dial") sampleParseIP
                (proxyOf (with_upstream (Some upstream) (Some (λ _, Ok None))
                            baseConfig) (Some pacScript) credentials))
      as (H & _).
    apply H. reflexivity.
  - destruct (upstream_selection_priority mitmConfig hostname pacFirst
                pacScheme (λ _, Err "no dial") sampleParseIP
                (proxyOf (with_upstream (Some upstream) None baseConfig)
                   (Some pacScript) noCredentials))
      as (_ & H & _).
    apply (H upstream); reflexivity.
  - destruct (upstream_selection_priority mitmConfig hostname pacFirst
                pacScheme (λ _, Err "no dial") sampleParseIP
                (proxyOf baseConfig (Some pacScript) noCredentials))
      as (_ & _ & H & _).
    apply H; reflexivity.
  - destruct (upstream_selection_priority mitmConfig hostname pacFirst
                pacScheme (λ _, Err "no dial") sampleParseIP
                (proxyOf baseConfig None noCredentials))
      as (_ & _ & _ & H & _).
    apply H; reflexivity.
Defined.


Lemma setBasicAuth_frame_witness :
  setBasicAuth base64 (proxyOf baseConfig None credentials)
    (with_Header {["Authorization" := ["Bearer t0ken"]]}
       (get "http" "origin.test" "/"))
  = (with_Header {["Authorization" := ["Bearer t0ken"]]}
       (get "http" "origin.test" "/"), None)
  ∧ setBasicAuth base64 (proxyOf baseConfig None credentials)
      (get "http" "origin.test" "/")
    = (with_Header
         (<["Authorization" := ["Basic alice:secret"]]> ∅)
         (get "http" "origin.test" "/"), None)
  ∧ setBasicAuth base64 (proxyOf baseConfig None credentials)
      (get "http" "other.test" "/")
    = (get "http" "other.test" "/", None).
Proof.
  split; [|split].
  - destruct (setBasicAuth_frame base64 (proxyOf baseConfig None credentials)
                (with_Header {["Authorization" := ["Bearer t0ken"]]}
                   (get "http" "origin.test" "/"))) as (H & _).
    apply H. vm_compute. discriminate.
  - destruct (setBasicAuth_frame base64 (proxyOf baseConfig None credentials)
                (get "http" "origin.test" "/")) as (_ & H & _).
    destruct (H eq_refl) as [Hm _].
    exact (Hm alice eq_refl).
  - destruct (setBasicAuth_frame base64 (proxyOf baseConfig None credentials)
                (get "http" "other.test" "/")) as (_ & H & _).
    destruct (H eq_refl) as [_ Hn].
    exact (Hn eq_refl).
Defined.

(** C2, as the claim states it, fails: for a name whose hosts-file
    entries are [10.0.0.1] and then [127.0.0.1], the lookup returns an
    IP that is a loopback address, and the request is not classified
    localhost. *)
Lemma isLocalhost_reads_first_address_only :
  ¬ (isLocalhost hostname (ResolverLookupHost sampleParseIP nopResolver network)
       sampleParseIP (get "http" "dual.internal:8080" "/") = Ok true
     ↔ spec_isLocalhost sampleParseIP
         (localLookup sampleParseIP network "dual.internal") "dual.internal").
Proof.
  intros [_ H].
  enough (isLocalhost hostname
            (ResolverLookupHost sampleParseIP nopResolver network)
            sampleParseIP (get "http" "dual.internal:8080" "/") = Ok true)
    as E by (vm_compute in E; discriminate E).
  apply H. right. exists "127.0.0.1", (v4InV6Prefix ++ [127; 0; 0; 1])%list.
  split; [|split; reflexivity].
  change (localLookup sampleParseIP network "dual.internal")
    with ["10.0.0.1"; "127.0.0.1"].
  apply list_elem_of_In. simpl. auto.
Qed.

Lemma isLocalhost_first_local_address_witness :
  isLocalhost hostname (ResolverLookupHost sampleParseIP nopResolver network)
    sampleParseIP (get "http" "example.com" "/") = Ok false
  ∧ (isLocalhost hostname (ResolverLookupHost sampleParseIP nopResolver network)
       sampleParseIP (get "http" "dev.internal:3000" "/") = Ok true
     ↔ first_isLocalhost sampleParseIP
         (localLookup sampleParseIP network "dev.internal") "dev.internal").
Proof.
  split.
  - destruct (isLocalhost_first_local_address hostname sampleParseIP network
                (get "http" "example.com" "/")) as (_ & _ & _ & H).
    apply H; [discriminate | reflexivity | reflexivity].
  - destruct (isLocalhost_first_local_address hostname sampleParseIP network
                (get "http" "dev.internal:3000" "/")) as (H & _).
    exact H.
Defined.

(** The addresses and names of the specification's examples. *)
Example localhost_classification :
  map (λ host, isLocalhost hostname
                 (ResolverLookupHost sampleParseIP nopResolver network)
                 sampleParseIP (get "http" host "/"))
    ["localhost"; "127.0.0.1"; "127.99.0.5"; "[::1]:80"; "dev.internal";
     "example.com"; "dual.internal"]
  = [Ok true; Ok true; Ok true; Ok true; Ok true; Ok false; Ok false].
Proof. reflexivity. Qed.

End ForwarderFacts.


(** ** The request's context and the ids *)

Module MartianContextFacts.

Import Fmt Martian MartianContext FmtFacts.

Lemma key_eqb_refl (k : key) : key_eqb k k = true.
Proof. destruct k; simpl; try reflexivity. apply String.eqb_refl. Qed.

Lemma key_eqb_eq (a b : key) : key_eqb a b = true ↔ a = b.
Proof.
  split; [|intros ->; apply key_eqb_refl].
  destruct a, b; simpl; try discriminate; try reflexivity.
  intros H. apply String.eqb_eq in H. now subst.
Qed.

Lemma Value_elem (ctx : GoContext) (k : key) (v : value) :
  Value ctx k = Some v → (k, v) ∈ ctx.
Proof.
  induction ctx as [|[k' v'] ctx IH]; simpl; [discriminate|].
  destruct (key_eqb k k') eqn:E.
  - intros [= <-]. apply key_eqb_eq in E. subst. left.
  - intros H. right. auto.
Qed.

(** [FromContext] gives back the context that [addToContext] stored,
    the trace value of the result is the id of that context, and the
    bindings of all other keys are those of the parent. *)
Theorem FromContext_addToContext (ctx : Context) (rctx : option GoContext) :
  FromContext (addToContext ctx rctx) = Ok (Some ctx)
  ∧ Value (addToContext ctx rctx) TraceContextKey = Some (VString (ID ctx))
  ∧ ∀ k, Value (addToContext ctx rctx) (otherKey k)
         = Value (default Background rctx) (otherKey k).
Proof.
  split; [reflexivity|]. split; [reflexivity|].
  intros k. destruct rctx; reflexivity.
Qed.

(** The latest [addToContext] wins: a context added on top of another
    one hides it. *)
Lemma addToContext_shadows (c1 c2 : Context) (rctx : option GoContext) :
  FromContext (addToContext c2 (Some (addToContext c1 rctx))) = Ok (Some c2).
Proof. reflexivity. Qed.

Lemma well_formed_Background : well_formed Background.
Proof. intros k v H. inversion H. Qed.

Lemma well_formed_addToContext (ctx : Context) (rctx : GoContext) :
  well_formed rctx → well_formed (addToContext ctx (Some rctx)).
Proof.
  intros Hwf k v H Hk. unfold addToContext, WithValue in H.
  apply elem_of_cons in H as [[= -> ->]|H]; [discriminate|].
  apply elem_of_cons in H as [[= -> ->]|H]; [eauto|].
  eapply Hwf; eauto.
Qed.

Lemma well_formed_WithValue (rctx : GoContext) (k : key) (v : value) :
  well_formed rctx → k ≠ martianKey → well_formed (WithValue rctx k v).
Proof.
  intros Hwf Hne k' v' H Hk. unfold WithValue in H.
  apply elem_of_cons in H as [[= -> ->]|H]; [contradiction|].
  eapply Hwf; eauto.
Qed.

(** On a context in which only [addToContext] wrote the martian key,
    [FromContext] never panics: it returns a context or nil. *)
Theorem FromContext_well_formed (rctx : GoContext) :
  well_formed rctx →
  ∃ o, FromContext rctx = Ok o ∧
       (o = None ↔ Value rctx martianKey = None).
Proof.
  intros Hwf. unfold FromContext.
  destruct (Value rctx martianKey) as [v|] eqn:E.
  - destruct (Hwf _ _ (Value_elem _ _ _ E) eq_refl) as [c ->].
    exists (Some c). split; [reflexivity|]. split; discriminate.
  - exists None. split; [reflexivity|]. split; reflexivity.
Qed.

Lemma FromContext_well_formed_witness :
  ∃ o, FromContext
         (WithValue (addToContext
                       {| session := 1%nat; n := 1; hash := 7; vals := ∅;
                          skipRoundTrip := false |} None)
            (otherKey "user") (VString "u")) = Ok o ∧
       (o = None ↔
        Value (WithValue (addToContext
                            {| session := 1%nat; n := 1; hash := 7; vals := ∅;
                               skipRoundTrip := false |} None)
                 (otherKey "user") (VString "u")) martianKey = None).
Proof.
  apply FromContext_well_formed.
  apply well_formed_WithValue; [|discriminate].
  apply well_formed_addToContext, well_formed_Background.
Defined.

(** [TestContext] creates a context only once: on the request it
    returns, a second call gives the same context, creates no session,
    takes no new id and leaves the request as it is. *)
Theorem TestContext_idempotent
  (rctx rctx' : GoContext) (c c2 : Conn) (bw bw2 : ReadWriter)
  (addr addr2 : nat) (now now2 : Z) (p p' : Process)
  (ctx : Context) (os : option Session) :
  TestContext rctx c bw addr now p = Ok (ctx, os, rctx', p') →
  TestContext rctx' c2 bw2 addr2 now2 p' = Ok (ctx, None, rctx', p').
Proof.
  unfold TestContext. destruct (FromContext rctx) as [[c0|]| |] eqn:E;
    try discriminate.
  - intros [= <- <- <- <-]. rewrite E. reflexivity.
  - simpl. intros [= <- <- <- <-]. reflexivity.
Qed.

Lemma TestContext_idempotent_witness :
  TestContext
    (addToContext {| session := 9%nat; n := 1; hash := 908722176; vals := ∅;
                     skipRoundTrip := false |} (Some Background))
    5%nat 6%nat 10%nat 1700000000000000123 {| nextID := 1 |}
  = Ok ({| session := 9%nat; n := 1; hash := 908722176; vals := ∅;
           skipRoundTrip := false |}, None,
        addToContext {| session := 9%nat; n := 1; hash := 908722176; vals := ∅;
                        skipRoundTrip := false |} (Some Background),
        {| nextID := 1 |}).
Proof.
  apply (TestContext_idempotent Background _ 3%nat 5%nat 4%nat 6%nat
           9%nat 10%nat 1700000000000000000 1700000000000000123 start
           {| nextID := 1 |} _ (Some (newSession 3%nat 4%nat))).
  reflexivity.
Defined.

(** On a request without a context, [TestContext] creates a session on
    the given connection and a context with the next id, and stores the
    context so that [FromContext] finds it. *)
Theorem TestContext_fresh (rctx : GoContext) (c : Conn) (bw : ReadWriter)
  (addr : nat) (now : Z) (p : Process) :
  Value rctx martianKey = None →
  ∃ ctx rctx',
    TestContext rctx c bw addr now p
    = Ok (ctx, Some (newSession c bw), rctx', {| nextID := n ctx |})
    ∧ n ctx = uint64 (nextID p + 1) ∧ session ctx = addr
    ∧ FromContext rctx' = Ok (Some ctx)
    ∧ Value rctx' TraceContextKey = Some (VString (ID ctx)).
Proof.
  intros H. unfold TestContext, FromContext. rewrite H. simpl.
  exists {| session := addr; n := uint64 (nextID p + 1); hash := uint32 now;
            vals := ∅; skipRoundTrip := false |}.
  eexists. split; [reflexivity|].
  split; [reflexivity|]. split; [reflexivity|].
  split; reflexivity.
Qed.

Lemma TestContext_fresh_witness :
  ∃ ctx rctx',
    TestContext Background 3%nat 4%nat 9%nat 1700000000000000000 start
    = Ok (ctx, Some (newSession 3%nat 4%nat), rctx', {| nextID := n ctx |})
    ∧ n ctx = uint64 (nextID start + 1) ∧ session ctx = 9%nat
    ∧ FromContext rctx' = Ok (Some ctx)
    ∧ Value rctx' TraceContextKey = Some (VString (ID ctx)).
Proof.
  apply (TestContext_fresh Background 3%nat 4%nat 9%nat
           1700000000000000000 start).
  reflexivity.
Defined.

(** *** Reading ids back *)

Lemma splitDash_digits (a x : string) :
  all_digits a = true → splitDash (a +:+ "-" +:+ x) = Some (a, x).
Proof.
  induction a as [|c a IH]; simpl; [reflexivity|].
  intros H. apply andb_prop in H as [Hc Ha].
  destruct (Ascii.eqb_spec c "-") as [->|_]; [discriminate Hc|].
  now rewrite (IH Ha).
Qed.

Lemma hex_to_uint_nonnil (k : N) : N.to_hex_uint k ≠ Hexadecimal.Nil.
Proof.
  destruct k as [|p]; simpl; [discriminate|].
  apply HexadecimalPos.Unsigned.to_uint_nonnil.
Qed.

Lemma parse_zeros (k : nat) (s : string) (d : Hexadecimal.uint) :
  HexadecimalString.NilEmpty.uint_of_string s = Some d →
  ∃ d', HexadecimalString.NilEmpty.uint_of_string (zeros k +:+ s) = Some d'
        ∧ N.of_hex_uint d' = N.of_hex_uint d.
Proof.
  intros H. induction k as [|k (d' & H1 & H2)]; simpl.
  - exists d. auto.
  - rewrite H1. exists (Hexadecimal.D0 d'). split; [reflexivity | exact H2].
Qed.

Lemma parse_fmt_08x (h : Z) :
  0 ≤ h →
  ∃ d, HexadecimalString.NilEmpty.uint_of_string (fmt_08x h) = Some d
       ∧ Z.of_N (N.of_hex_uint d) = h.
Proof.
  intros Hh. unfold fmt_08x, pad0.
  assert (HexadecimalString.NilEmpty.uint_of_string
            (HexadecimalString.NilZero.string_of_uint (N.to_hex_uint (Z.to_N h)))
          = Some (N.to_hex_uint (Z.to_N h))) as E.
  { pose proof (hex_to_uint_nonnil (Z.to_N h)) as Hn.
    unfold HexadecimalString.NilZero.string_of_uint.
    destruct (N.to_hex_uint (Z.to_N h)) eqn:Ed; try contradiction;
      rewrite <- Ed; apply HexadecimalString.NilEmpty.usu. }
  destruct (parse_zeros (8 - String.length
              (HexadecimalString.NilZero.string_of_uint
                 (N.to_hex_uint (Z.to_N h)))) _ _ E) as (d & H1 & H2).
  exists d. split; [exact H1|].
  rewrite H2, HexadecimalN.Unsigned.of_to. lia.
Qed.

(** The id string determines the counter value and the 32-bit value:
    reading the decimal part and the hexadecimal part of an id gives
    back the two fields. *)
Theorem parseID_ID (c : Context) :
  0 ≤ n c → 0 ≤ hash c → parseID (ID c) = Some (n c, hash c).
Proof.
  intros Hn Hh. unfold parseID, ID.
  rewrite (splitDash_digits _ _ (all_digits_fmt_d (n c))).
  unfold fmt_d at 1.
  rewrite (DecimalString.NilZero.usu _ (to_uint_nonnil (Z.to_N (n c)))).
  destruct (parse_fmt_08x (hash c) Hh) as (d & H1 & H2).
  rewrite H1, H2, DecimalN.Unsigned.of_to. f_equal. f_equal. lia.
Qed.

Lemma parseID_ID_witness :
  parseID (ID {| session := 1%nat; n := 2; hash := 908722299; vals := ∅;
                 skipRoundTrip := false |}) = Some (2, 908722299).
Proof.
  apply (parseID_ID {| session := 1%nat; n := 2; hash := 908722299; vals := ∅;
                       skipRoundTrip := false |}).
  - simpl. lia.
  - simpl. lia.
Defined.

(** Two contexts made by [withSession] that have the same id have the
    same counter value and the same 32-bit value: the id identifies both
    fields. *)
Theorem withSession_ID_inj (s1 s2 : nat) (now1 now2 : Z) (p1 p2 : Process) :
  ID (withSession s1 now1 p1).1 = ID (withSession s2 now2 p2).1 →
  n (withSession s1 now1 p1).1 = n (withSession s2 now2 p2).1
  ∧ hash (withSession s1 now1 p1).1 = hash (withSession s2 now2 p2).1.
Proof.
  intros E.
  assert (∀ s now p, parseID (ID (withSession s now p).1)
                     = Some (n (withSession s now p).1,
                             hash (withSession s now p).1)) as H.
  { intros s now p. apply parseID_ID; simpl.
    - apply Z.mod_pos_bound. reflexivity.
    - apply Z.mod_pos_bound. reflexivity. }
  pose proof (H s1 now1 p1) as H1. rewrite E, H in H1.
  injection H1 as Hn Hh. split; symmetry; assumption.
Qed.

Lemma withSession_ID_inj_witness :
  n (withSession 1%nat 1700000000000000000 start).1
  = n (withSession 2%nat (1700000000000000000 + 2 ^ 32) start).1
  ∧ hash (withSession 1%nat 1700000000000000000 start).1
    = hash (withSession 2%nat (1700000000000000000 + 2 ^ 32) start).1.
Proof.
  apply withSession_ID_inj. reflexivity.
Defined.

End MartianContextFacts.

(** ** Session and context storage, and what hijacking leaves alone *)

Module MartianStoreFacts.

Import Fmt Martian.

(** A value set on a session is the one read back under that key, the
    other keys keep their values, and the flags and the connection of
    the session are not touched. *)
Theorem Session_Set_Get (s : Session) (k k' : string) (v : any) :
  SessionGet (SessionSet s k v) k = Some v
  ∧ (k ≠ k' → SessionGet (SessionSet s k v) k' = SessionGet s k')
  ∧ IsSecure (SessionSet s k v) = IsSecure s
  ∧ Hijacked (SessionSet s k v) = Hijacked s
  ∧ conn (SessionSet s k v) = conn s ∧ rw (SessionSet s k v) = rw s.
Proof.
  unfold SessionGet, SessionSet; simpl. split; [|split].
  - apply lookup_insert_eq.
  - intros H. now apply lookup_insert_ne.
  - repeat split.
Qed.

Lemma Session_Set_Get_witness :
  SessionGet (SessionSet (newSession 1%nat 2%nat) "a" "1") "b"
  = SessionGet (newSession 1%nat 2%nat) "b".
Proof.
  destruct (Session_Set_Get (newSession 1%nat 2%nat) "a" "b" "1")
    as (_ & H & _).
  apply H. discriminate.
Defined.

(** The last value set under a key is the one kept. *)
Lemma Session_Set_twice (s : Session) (k : string) (v1 v2 : any) :
  SessionSet (SessionSet s k v1) k v2 = SessionSet s k v2.
Proof. unfold SessionSet. simpl. f_equal. apply insert_insert_eq. Qed.

(** A value set on a context is the one read back under that key and
    the other keys keep their values; neither [Set] nor [SkipRoundTrip]
    changes the id or the session of the context, and [SkipRoundTrip]
    keeps the stored values. *)
Theorem Context_Set_Get (c : Context) (k k' : string) (v : any) :
  ContextGet (ContextSet c k v) k = Some v
  ∧ (k ≠ k' → ContextGet (ContextSet c k v) k' = ContextGet c k')
  ∧ ID (ContextSet c k v) = ID c
  ∧ ContextSession (ContextSet c k v) = ContextSession c
  ∧ SkippingRoundTrip (ContextSet c k v) = SkippingRoundTrip c
  ∧ SkippingRoundTrip (SkipRoundTrip c) = true
  ∧ ID (SkipRoundTrip c) = ID c
  ∧ ContextGet (SkipRoundTrip c) k' = ContextGet c k'.
Proof.
  unfold ContextGet, ContextSet, SkipRoundTrip; simpl. split; [|split].
  - apply lookup_insert_eq.
  - intros H. now apply lookup_insert_ne.
  - repeat split.
Qed.

Lemma Context_Set_Get_witness :
  ContextGet
    (ContextSet {| session := 1%nat; n := 1; hash := 7; vals := ∅;
                   skipRoundTrip := false |} "a" "1") "b"
  = ContextGet {| session := 1%nat; n := 1; hash := 7; vals := ∅;
                  skipRoundTrip := false |} "b".
Proof.
  destruct (Context_Set_Get {| session := 1%nat; n := 1; hash := 7; vals := ∅;
                               skipRoundTrip := false |} "a" "b" "1")
    as (_ & H & _).
  apply H. discriminate.
Defined.

(** A new context and a new session hold no value. *)
Lemma fresh_stores_empty (c : Conn) (b : ReadWriter) (w : ResponseWriter)
  (a : nat) (now : Z) (p : Process) (k : string) :
  SessionGet (newSession c b) k = None
  ∧ SessionGet (newSessionWithResponseWriter w) k = None
  ∧ ContextGet (withSession a now p).1 k = None.
Proof. repeat split. Qed.

(** *** What a run of calls leaves alone *)

Lemma exec_backing (c : call) (s : Session) :
  conn (exec c s).2 = conn s ∧ brw (exec c s).2 = brw s
  ∧ rw (exec c s).2 = rw s.
Proof.
  destruct c as [ctl| | | |k v]; simpl;
    unfold Hijack, HijackResponseWriter; repeat case_match; simplify_eq/=;
    repeat split; congruence.
Qed.

Lemma exec_frame (c : call) (s : Session) :
  (match c with CSet _ _ => False | _ => True end →
   svals (exec c s).2 = svals s)
  ∧ (match c with CMarkSecure | CMarkInsecure => False | _ => True end →
     secure (exec c s).2 = secure s)
  ∧ (match c with CHijack _ | CHijackResponseWriter => False | _ => True end →
     hijacked (exec c s).2 = hijacked s).
Proof.
  destruct c as [ctl| | | |k v]; simpl;
    unfold Hijack, HijackResponseWriter; repeat case_match; simplify_eq/=;
    repeat split; intros; try contradiction; congruence.
Qed.


(** No call changes what backs a session: the connection, the buffered
    reader and writer and the response writer stay those the session was
    created with.  The stored values change only by [Set], the secure
    flag only by [MarkSecure] and [MarkInsecure], the hijacked flag only
    by the two hijack methods. *)
Theorem run_frame (cs : list call) (s : Session) :
  conn (run cs s).2 = conn s ∧ brw (run cs s).2 = brw s
  ∧ rw (run cs s).2 = rw s
  ∧ (Forall (λ c, match c with CSet _ _ => False | _ => True end) cs →
     svals (run cs s).2 = svals s)
  ∧ (Forall (λ c, match c with
                  | CMarkSecure | CMarkInsecure => False
                  | _ => True
                  end) cs →
     secure (run cs s).2 = secure s)
  ∧ (Forall (λ c, match c with
                  | CHijack _ | CHijackResponseWriter => False
                  | _ => True
                  end) cs →
     hijacked (run cs s).2 = hijacked s).
Proof.
  revert s. induction cs as [|c cs IH]; intros s; simpl.
  - repeat split.
  - destruct (exec_backing c s) as (H1 & H2 & H3).
    destruct (exec_frame c s) as (F1 & F2 & F3).
    destruct (exec c s) as [r s'] eqn:E. simpl in *.
    destruct (IH s') as (I1 & I2 & I3 & I4 & I5 & I6).
    destruct (run cs s') as [rs s'']. simpl in *.
    split; [congruence|]. split; [congruence|]. split; [congruence|].
    split; [|split]; intros HF; inversion HF; subst.
    + rewrite I4, F1; auto.
    + rewrite I5, F2; auto.
    + rewrite I6, F3; auto.
Qed.

Lemma run_frame_witness :
  svals (run [CHijack (Err "feature not supported"); CMarkSecure;
              CHijackResponseWriter]
           (SessionSet (newSession 1%nat 2%nat) "user" "u")).2
  = svals (SessionSet (newSession 1%nat 2%nat) "user" "u").
Proof.
  destruct (run_frame [CHijack (Err "feature not supported"); CMarkSecure;
                       CHijackResponseWriter]
              (SessionSet (newSession 1%nat 2%nat) "user" "u"))
    as (_ & _ & _ & H & _).
  apply H. repeat constructor.
Defined.

(** *** Which hijack can succeed *)




(** In any run of calls on any session, at most one hijack call
    succeeds. *)
Theorem at_most_one_hijack (cs : list call) (s : Session) :
  (length (filter (λ r, hijack_succeeded r = true) (run cs s).1) ≤ 1)%nat.
Proof.
  revert s. induction cs as [|c cs IH]; intros s; simpl; [lia|].
  destruct (exec c s) as [r s'] eqn:E.
  destruct (run cs s') as [rs s''] eqn:Er. simpl.
  rewrite filter_cons. destruct (decide (hijack_succeeded r = true)) as [Hr|Hr].
  - assert (hijacked s' = true) as Hs'.
    { pose proof (MartianFacts.exec_success_hijacked c s) as H.
      rewrite E in H. simpl in H. auto. }
    destruct (MartianFacts.run_hijacked cs s' Hs') as [Hall _].
    rewrite Er in Hall. simpl in Hall.
    assert (filter (λ r, hijack_succeeded r = true) rs = []) as ->; [|simpl; lia].
    clear -Hall. induction Hall as [|x r' xs rs' Hx _ IHx]; [reflexivity|].
    rewrite filter_cons. destruct (decide _) as [Hd|_]; [|exact IHx].
    destruct x; simpl in Hx; subst r'; discriminate Hd.
  - specialize (IH s'). rewrite Er in IH. simpl in IH. exact IH.
Qed.

End MartianStoreFacts.

(** ** Strings *)

Module StringFacts.

Lemma append_assoc (a b c : string) : (a +:+ b) +:+ c = a +:+ (b +:+ c).
Proof.
  induction a as [|x a IH]; [reflexivity|].
  change (String x ((a +:+ b) +:+ c) = String x (a +:+ (b +:+ c))).
  now rewrite IH.
Qed.

Lemma length_append (a b : string) :
  String.length (a +:+ b) = (String.length a + String.length b)%nat.
Proof.
  induction a as [|x a IH]; [reflexivity|].
  change (S (String.length (a +:+ b))
          = S (String.length a + String.length b)).
  now rewrite IH.
Qed.

Lemma append_nil_r (a : string) : a +:+ "" = a.
Proof.
  induction a as [|x a IH]; [reflexivity|].
  change (String x (a +:+ "") = String x a). now rewrite IH.
Qed.

(** Appending the same suffix to different strings gives different
    strings. *)
Lemma append_inj_r (a b c : string) : a +:+ c = b +:+ c → a = b.
Proof.
  revert b. induction a as [|x a IH]; intros [|y b] E.
  - reflexivity.
  - exfalso. apply (f_equal String.length) in E.
    rewrite !length_append in E. simpl in E. lia.
  - exfalso. apply (f_equal String.length) in E.
    rewrite !length_append in E. simpl in E. lia.
  - change (String x (a +:+ c) = String y (b +:+ c)) in E.
    injection E as -> E. f_equal. now apply IH.
Qed.

End StringFacts.

(** ** The trace prefix of log lines *)

Module MartianLogFacts.

Import Martian MartianContext MartianLog.

Section Trace.

Context (show : Martian.Context → string).

(** The martian logger prefixes a format with the trace of the context
    in brackets, and leaves it alone when the context has no trace; for
    a request that went through [addToContext] the prefix is the id of
    its context, and it is the prefix the HTTP logger writes for a
    request carrying that trace. *)
Theorem withTrace_prefix (ctx : Martian.Context) (rctx : option GoContext)
  (plain : GoContext) (format : string) (e : Httplog.LogEntry)
  (w : Httplog.logWriter) :
  withTrace show (addToContext ctx rctx) format
  = "[" +:+ ID ctx +:+ "] " +:+ format
  ∧ (Value plain TraceContextKey = None → withTrace show plain format = format)
  ∧ (Http.Trace (Httplog.ERequest e) = Some (ID ctx) →
     Httplog.b (Httplog.trace e w) +:+ format
     = Httplog.b w +:+ withTrace show (addToContext ctx rctx) format).
Proof.
  split; [reflexivity|]. split.
  - intros H. unfold withTrace. now rewrite H.
  - intros H. unfold Httplog.trace, Httplog.write. rewrite H. simpl Httplog.b.
    unfold withTrace. simpl.
    rewrite !StringFacts.append_assoc. reflexivity.
Qed.

End Trace.

Lemma withTrace_prefix_witness :
  withTrace (λ _, "") (WithValue Background (otherKey "user") (VString "u"))
    "dial %s"
  = "dial %s".
Proof.
  destruct (withTrace_prefix (λ _, "")
              {| session := 1%nat; n := 1; hash := 7; vals := ∅;
                 skipRoundTrip := false |} None
              (WithValue Background (otherKey "user") (VString "u")) "dial %s"
              {| Httplog.ERequest := Samples.get "http" "origin.test" "/";
                 Httplog.EResponse := None; Httplog.EStatus := 200;
                 Httplog.EDuration := 0 |}
              (Httplog.mkLogWriter "" false)) as (_ & H & _).
  apply H. reflexivity.
Defined.

(** Through the three entry points the current logger receives the
    traced format; with the initial logger nothing is printed. *)
Lemma nopLogger_silent (show : Martian.Context → string) (ctx : GoContext)
  (format : string) (args : list string) :
  Infof show currLogger0 ctx format args = []
  ∧ Debugf show currLogger0 ctx format args = []
  ∧ Errorf show currLogger0 ctx format args = [].
Proof. repeat split. Qed.

End MartianLogFacts.

(** ** The names of the PAC modes *)

Module PacModeFacts.

Import PacMode.

Lemma Z_to_int_not_nil (z : Z) :
  Z.to_int z ≠ Decimal.Pos Decimal.Nil ∧ Z.to_int z ≠ Decimal.Neg Decimal.Nil.
Proof.
  destruct z as [|p|p]; simpl; split; try discriminate;
    intros [= H]; exact (DecimalPos.Unsigned.to_uint_nonnil p H).
Qed.

Lemma FormatInt_inj (i j : Z) : FormatInt i = FormatInt j → i = j.
Proof.
  intros E. unfold FormatInt in E.
  destruct (Z_to_int_not_nil i) as [Hi1 Hi2].
  destruct (Z_to_int_not_nil j) as [Hj1 Hj2].
  apply DecimalZ.to_int_inj.
  assert (Some (Z.to_int i) = Some (Z.to_int j)) as H; [|now injection H].
  rewrite <- (DecimalString.NilZero.isi _ Hi1 Hi2).
  rewrite <- (DecimalString.NilZero.isi _ Hj1 Hj2).
  now rewrite E.
Qed.

Lemma in_range_mode (i : Z) :
  0 ≤ i < 7 → ∃ m, i = Pac.Mode_value m.
Proof.
  intros H.
  assert (i = 0 ∨ i = 1 ∨ i = 2 ∨ i = 3 ∨ i = 4 ∨ i = 5 ∨ i = 6)
    as [->|[->|[->|[->|[->|[->| ->]]]]]] by lia.
  - now exists Pac.DIRECT.
  - now exists Pac.PROXY.
  - now exists Pac.HTTP.
  - now exists Pac.HTTPS.
  - now exists Pac.SOCKS.
  - now exists Pac.SOCKS4.
  - now exists Pac.SOCKS5.
Qed.

Lemma String_mode (m : Pac.Mode) : String (Pac.Mode_value m) = Ok (keyword m).
Proof. destruct m; reflexivity. Qed.

Lemma String_out_of_range (i : Z) :
  i < 0 ∨ 7 ≤ i → String i = Ok ("Mode(" +:+ FormatInt i +:+ ")").
Proof.
  intros H. unfold String. simpl length.
  destruct (Z.ltb_spec i 0); [reflexivity|].
  destruct (Z.geb_spec i (Z.of_nat 8 - 1)); [reflexivity|]. simpl in *. lia.
Qed.

(** [Mode.String] never panics: the seven modes print as their PAC
    keywords, cut out of the name table, and every other integer prints
    as [Mode(n)]. *)
Theorem Mode_String_total (i : Z) :
  (∀ m, i = Pac.Mode_value m → String i = Ok (keyword m))
  ∧ (i < 0 ∨ 7 ≤ i → String i = Ok ("Mode(" +:+ FormatInt i +:+ ")"))
  ∧ ∃ s, String i = Ok s.
Proof.
  split; [|split].
  - intros m ->. apply String_mode.
  - apply String_out_of_range.
  - destruct (decide (0 ≤ i < 7)) as [H|H].
    + destruct (in_range_mode i H) as [m ->]. eexists. apply String_mode.
    + eexists. apply String_out_of_range. lia.
Qed.

Lemma Mode_String_total_witness :
  String 3 = Ok "HTTPS" ∧ String (-2) = Ok "Mode(-2)".
Proof.
  split.
  - destruct (Mode_String_total 3) as (H & _). apply (H Pac.HTTPS). reflexivity.
  - destruct (Mode_String_total (-2)) as (_ & H & _). apply H. lia.
Defined.

(** Different integers print differently, in range or not: the printed
    name identifies the mode. *)
Theorem Mode_String_inj (i j : Z) : String i = String j → i = j.
Proof.
  intros E.
  destruct (decide (0 ≤ i < 7)) as [Hi|Hi];
    destruct (decide (0 ≤ j < 7)) as [Hj|Hj].
  - destruct (in_range_mode i Hi) as [m ->].
    destruct (in_range_mode j Hj) as [m' ->].
    rewrite !String_mode in E. destruct m, m'; try reflexivity; discriminate E.
  - destruct (in_range_mode i Hi) as [m ->].
    rewrite String_mode, String_out_of_range in E by lia.
    destruct m; discriminate E.
  - destruct (in_range_mode j Hj) as [m ->].
    rewrite String_mode, String_out_of_range in E by lia.
    destruct m; discriminate E.
  - rewrite !String_out_of_range in E by lia.
    injection E as E.
    apply (StringFacts.append_inj_r (FormatInt i) (FormatInt j) ")") in E.
    now apply FormatInt_inj.
Qed.

Lemma Mode_String_inj_witness : Pac.Mode_value Pac.SOCKS = 4.
Proof. apply Mode_String_inj. reflexivity. Defined.

End PacModeFacts.

(** ** The DNS handlers of the PAC resolver *)

Module PacHandlersFacts.

Import Http PacHandlers.

Section Handlers.

Context (asString : JSValue → string * bool) (IPString : IP → string).

(** [myIpAddress()] always answers a string, whatever its arguments: the
    first address of the testing seam when the seam is set (the system
    is then not asked), else the first system address, and [127.0.0.1]
    when that list is empty. *)
Theorem myIPAddress_answers (systemIPs : list IP) (cfg : ProxyResolverConfig)
  (args : list JSValue) :
  (∃ s, myIPAddress IPString systemIPs cfg args = JSString s)
  ∧ (default systemIPs (testingMyIPAddress cfg) = [] →
     myIPAddress IPString systemIPs cfg args = JSString "127.0.0.1")
  ∧ (∀ ip rest, default systemIPs (testingMyIPAddress cfg) = ip :: rest →
       myIPAddress IPString systemIPs cfg args = JSString (IPString ip))
  ∧ (∀ l other, testingMyIPAddress cfg = Some l →
       myIPAddress IPString other cfg args
       = myIPAddress IPString systemIPs cfg args)
  ∧ (∀ args', myIPAddress IPString systemIPs cfg args'
              = myIPAddress IPString systemIPs cfg args).
Proof.
  unfold myIPAddress. split; [|split; [|split; [|split]]].
  - destruct (testingMyIPAddress cfg) as [[|ip l]|]; simpl; eauto.
    destruct systemIPs; eauto.
  - destruct (testingMyIPAddress cfg); simpl; intros ->; reflexivity.
  - intros ip rest. destruct (testingMyIPAddress cfg); simpl; intros ->;
      reflexivity.
  - intros l other ->. reflexivity.
  - reflexivity.
Qed.

(** [dnsResolve] asks for IPv4 addresses only.  Without a string
    argument it answers undefined and looks nothing up; a failed lookup
    is null; a successful one is the first address as a string; the
    testing seam, when set, replaces the resolver.  It never returns an
    error, and it panics on a lookup that succeeds with no address. *)
Theorem dnsResolve_answers
  (resolverLookupIP : string → string → outcome (list IP))
  (cfg : ProxyResolverConfig) (args : list JSValue) :
  ((asString (Argument args 0)).2 = false →
     ∀ other, dnsResolve asString IPString other cfg args = Ok Undefined)
  ∧ ((asString (Argument args 0)).2 = true →
     match default resolverLookupIP (testingLookupIP cfg) "ip4"
             (asString (Argument args 0)).1 with
     | Ok (ip :: _) =>
         dnsResolve asString IPString resolverLookupIP cfg args
         = Ok (JSString (IPString ip))
     | Ok [] =>
         dnsResolve asString IPString resolverLookupIP cfg args
         = Panic "index out of range"
     | Err _ =>
         dnsResolve asString IPString resolverLookupIP cfg args = Ok Null
     | Panic m =>
         dnsResolve asString IPString resolverLookupIP cfg args = Panic m
     end)
  ∧ (∀ f other, testingLookupIP cfg = Some f →
       dnsResolve asString IPString other cfg args
       = dnsResolve asString IPString resolverLookupIP cfg args)
  ∧ (∀ e, dnsResolve asString IPString resolverLookupIP cfg args ≠ Err e).
Proof.
  unfold dnsResolve.
  destruct (asString (Argument args 0)) as [host ok] eqn:E. simpl.
  split; [|split; [|split]].
  - intros ->. reflexivity.
  - intros ->. simpl.
    destruct (testingLookupIP cfg) as [f|]; simpl.
    + destruct (f "ip4" host) as [[|ip l]| |]; reflexivity.
    + destruct (resolverLookupIP "ip4" host) as [[|ip l]| |]; reflexivity.
  - intros f other ->. reflexivity.
  - intros e. destruct ok; simpl; [|discriminate].
    destruct (testingLookupIP cfg) as [f|].
    + destruct (f "ip4" host) as [[|ip l]| |]; discriminate.
    + destruct (resolverLookupIP "ip4" host) as [[|ip l]| |]; discriminate.
Qed.

End Handlers.

Lemma myIPAddress_answers_witness :
  myIPAddress (λ _, "10.1.2.3") [[10; 1; 2; 3]]
    {| testingLookupIP := None; testingMyIPAddress := Some [] |} []
  = JSString "127.0.0.1".
Proof.
  destruct (myIPAddress_answers (λ _, "10.1.2.3") [[10; 1; 2; 3]]
              {| testingLookupIP := None; testingMyIPAddress := Some [] |} [])
    as (_ & H & _).
  apply H. reflexivity.
Defined.

Lemma dnsResolve_answers_witness :
  dnsResolve (λ v, match v with JSString s => (s, true) | _ => ("", false) end)
    (λ _, "10.1.2.3") (λ _ _, Ok [[10; 1; 2; 3]])
    {| testingLookupIP := None; testingMyIPAddress := None |} []
  = Ok Undefined.
Proof.
  destruct (dnsResolve_answers
              (λ v, match v with JSString s => (s, true) | _ => ("", false) end)
              (λ _, "10.1.2.3") (λ _ _, Ok [[10; 1; 2; 3]])
              {| testingLookupIP := None; testingMyIPAddress := None |} [])
    as (H & _).
  apply H. reflexivity.
Defined.

End PacHandlersFacts.

(** ** The proxy: modes, validation, construction *)

Module ForwarderConfigFacts.

Import Http Forwarder ForwarderMore.

(** [UnmarshalText] accepts exactly the three valid modes; it then
    stores the text, which [String] gives back, and otherwise returns an
    error and leaves the mode as it was, so a valid mode stays valid. *)
Theorem UnmarshalText_valid (text : string) (m : ProxyLocalhostMode) :
  ((UnmarshalText text m).1 = None ↔ isValid text = true)
  ∧ ((UnmarshalText text m).1 = None →
     ModeString (UnmarshalText text m).2 = text)
  ∧ ((UnmarshalText text m).1 ≠ None → (UnmarshalText text m).2 = m)
  ∧ (isValid m = true → isValid (UnmarshalText text m).2 = true).
Proof.
  unfold UnmarshalText, isValid, ModeString.
  destruct (String.eqb text DenyProxyLocalhost
            || String.eqb text AllowProxyLocalhost
            || String.eqb text DirectProxyLocalhost) eqn:E; simpl.
  - repeat split; auto. intros H. contradiction.
  - repeat split; auto; discriminate.
Qed.

Lemma UnmarshalText_valid_witness :
  isValid (UnmarshalText "loopback" DenyProxyLocalhost).2 = true.
Proof.
  destruct (UnmarshalText_valid "loopback" DenyProxyLocalhost) as (_ & _ & _ & H).
  apply H. reflexivity.
Defined.

Section Construction.

Context (HTTPScheme HTTPSScheme : string)
  (ServerValidate : HTTPProxyConfig → option error)
  (validateProxyURL : option URL → option error)
  (newMartianMITMConfig : MITMConfig → outcome MartianMITM)
  (Hostname : URL → string) (First : string → outcome Pac.Proxy)
  (scheme : Pac.Mode → string)
  (LookupHost : string → outcome (list string))
  (ParseIP : string → option IP).

Local Abbreviation Validate :=
  (Validate HTTPScheme HTTPSScheme ServerValidate validateProxyURL).
Local Abbreviation configureProxy :=
  (configureProxy newMartianMITMConfig Hostname First scheme LookupHost ParseIP).
Local Abbreviation newHTTPProxy :=
  (newHTTPProxy HTTPScheme HTTPSScheme ServerValidate validateProxyURL
     newMartianMITMConfig Hostname First scheme LookupHost ParseIP).

(** [Validate] passes exactly when the embedded server configuration
    validates, the protocol is http or https, the localhost mode is one
    of the three and the upstream URL validates; the first check that
    fails, in this order, gives the error. *)
Theorem Validate_passes_iff (c : HTTPProxyConfig) :
  (Validate c = None ↔
   ServerValidate c = None
   ∧ (Protocol c = HTTPScheme ∨ Protocol c = HTTPSScheme)
   ∧ isValid (ProxyLocalhost c) = true
   ∧ validateProxyURL (UpstreamProxy c) = None)
  ∧ (∀ e, ServerValidate c = Some e → Validate c = Some e)
  ∧ (ServerValidate c = None → Protocol c ≠ HTTPScheme →
     Protocol c ≠ HTTPSScheme →
     Validate c = Some ("unsupported protocol: " +:+ Protocol c)).
Proof.
  unfold Forwarder.Validate. split; [|split].
  - split.
    + intros H. destruct (ServerValidate c) as [e|]; [discriminate|].
      destruct (String.eqb_spec (Protocol c) HTTPScheme) as [E1|E1];
        destruct (String.eqb_spec (Protocol c) HTTPSScheme) as [E2|E2];
        simpl in H; try discriminate H;
        destruct (isValid (ProxyLocalhost c)); simpl in H;
        try discriminate H;
        destruct (validateProxyURL (UpstreamProxy c)); try discriminate H;
        auto.
    + intros (H1 & H2 & H3 & H4). rewrite H1, H3, H4.
      assert (negb (String.eqb (Protocol c) HTTPScheme)
              && negb (String.eqb (Protocol c) HTTPSScheme) = false) as ->.
      { destruct H2 as [-> | ->]; rewrite String.eqb_refl; simpl;
          [reflexivity | apply andb_false_r]. }
      reflexivity.
  - intros e ->. reflexivity.
  - intros -> H1 H2. apply String.eqb_neq in H1, H2. rewrite H1, H2.
    reflexivity.
Qed.

Lemma configureProxy_frame (hp hp' : HTTPProxy) :
  configureProxy hp = Ok hp' →
  config hp' = config hp ∧ pac hp' = pac hp ∧ creds hp' = creds hp
  ∧ transport hp' = transport hp ∧ listener hp' = listener hp.
Proof.
  unfold Forwarder.configureProxy.
  destruct (MITM (config hp)) as [mc|];
    [destruct (newMartianMITMConfig mc); try discriminate|];
    intros [= <-]; repeat split.
Qed.

Lemma Validate_ok (c : HTTPProxyConfig) :
  Validate c = None →
  (Protocol c = HTTPScheme ∨ Protocol c = HTTPSScheme)
  ∧ isValid (ProxyLocalhost c) = true.
Proof.
  unfold Forwarder.Validate. intros H.
  destruct (ServerValidate c) as [e|]; [discriminate|].
  destruct (String.eqb_spec (Protocol c) HTTPScheme) as [E1|E1];
    destruct (String.eqb_spec (Protocol c) HTTPSScheme) as [E2|E2];
    simpl in H; try discriminate H;
    destruct (isValid (ProxyLocalhost c)); simpl in H; try discriminate H;
    auto.
Qed.

Lemma newHTTPProxy_ok cfg pr cm rt hp :
  newHTTPProxy cfg pr cm rt = Ok hp →
  config hp = cfg ∧ pac hp = pr ∧ creds hp = cm ∧ listener hp = None
  ∧ Validate cfg = None
  ∧ (UpstreamProxy cfg = None ∨ pr = None)
  ∧ (Protocol cfg = HTTPScheme ∨ Protocol cfg = HTTPSScheme)
  ∧ isValid (ProxyLocalhost cfg) = true.
Proof.
  intros H. unfold Forwarder.newHTTPProxy in H.
  destruct (Forwarder.Validate _ _ _ _ cfg) as [e|] eqn:Hv; [discriminate|].
  destruct (Validate_ok cfg Hv) as (Hp & Hm).
  assert (UpstreamProxy cfg = None ∨ pr = None) as Hone.
  { destruct (UpstreamProxy cfg); [|left; reflexivity].
    destruct pr; [discriminate|right; reflexivity]. }
  assert (configureProxy (initialProxy cfg pr cm rt) = Ok hp) as Hc.
  { destruct (UpstreamProxy cfg), pr; try exact H; discriminate. }
  destruct (configureProxy_frame _ _ Hc) as (H1 & H2 & H3 & _ & H5).
  simpl in *. repeat split; auto.
Qed.

(** Every proxy that [newHTTPProxy] returns holds the configuration, the
    PAC resolver and the credentials it was given, has no listener yet,
    and comes from a configuration that validates and does not combine
    an upstream URL with a PAC resolver. *)
Theorem newHTTPProxy_invariant cfg pr cm rt hp :
  newHTTPProxy cfg pr cm rt = Ok hp →
  config hp = cfg ∧ pac hp = pr ∧ creds hp = cm ∧ listener hp = None
  ∧ Validate cfg = None
  ∧ (UpstreamProxy cfg = None ∨ pr = None)
  ∧ (Protocol cfg = HTTPScheme ∨ Protocol cfg = HTTPSScheme)
  ∧ isValid (ProxyLocalhost cfg) = true.
Proof. apply newHTTPProxy_ok. Qed.

End Construction.

Lemma Validate_passes_iff_witness :
  Validate "http" "https" (λ _, None) Samples.proxyURLValid
    {| Protocol := "h2"; BasicAuth := None; LogHTTPMode := Httplog.Errors;
       MITM := None; MITMDomains := None; ProxyLocalhost := DenyProxyLocalhost;
       UpstreamProxy := None; UpstreamProxyFunc := None; DenyDomains := None;
       DirectDomains := None; RequestIDHeader := "X-Request-Id" |}
  = Some "unsupported protocol: h2".
Proof.
  destruct (Validate_passes_iff "http" "https" (λ _, None) Samples.proxyURLValid
              {| Protocol := "h2"; BasicAuth := None;
                 LogHTTPMode := Httplog.Errors; MITM := None;
                 MITMDomains := None; ProxyLocalhost := DenyProxyLocalhost;
                 UpstreamProxy := None; UpstreamProxyFunc := None;
                 DenyDomains := None; DirectDomains := None;
                 RequestIDHeader := "X-Request-Id" |}) as (_ & _ & H).
  apply H; [reflexivity | discriminate | discriminate].
Defined.

Lemma newHTTPProxy_invariant_witness :
  config (set_proxy None
            (Some (ProxyURL (with_User (Some Samples.alice) Samples.upstream)))
            (Samples.proxyOf
               (Samples.with_upstream (Some Samples.upstream) None
                  Samples.baseConfig) None Samples.credentials))
  = Samples.with_upstream (Some Samples.upstream) None Samples.baseConfig.
Proof.
  destruct (newHTTPProxy_invariant "http" "https" Samples.serverValidate
              Samples.proxyURLValid Samples.mitmConfig Samples.hostname
              Samples.pacFirst Samples.pacScheme (λ _, Err "no dial")
              sampleParseIP
              (Samples.with_upstream (Some Samples.upstream) None
                 Samples.baseConfig) None Samples.credentials None
              (set_proxy None
                 (Some (ProxyURL (with_User (Some Samples.alice)
                                    Samples.upstream)))
                 (Samples.proxyOf
                    (Samples.with_upstream (Some Samples.upstream) None
                       Samples.baseConfig) None Samples.credentials))
              eq_refl) as (H & _).
  exact H.
Defined.

End ForwarderConfigFacts.

(** ** The proxy: the upstream function in use, the listener *)

Module ForwarderUpstreamFacts.

Import Http Forwarder ForwarderMore.

Section Configured.

Context (HTTPScheme HTTPSScheme : string)
  (ServerValidate : HTTPProxyConfig → option error)
  (validateProxyURL : option URL → option error)
  (newMartianMITMConfig : MITMConfig → outcome MartianMITM)
  (Hostname : URL → string) (First : string → outcome Pac.Proxy)
  (scheme : Pac.Mode → string)
  (LookupHost : string → outcome (list string))
  (ParseIP : string → option IP).

Local Abbreviation selectProxyFunc := (selectProxyFunc First scheme).
Local Abbreviation isLocalhost := (isLocalhost Hostname LookupHost ParseIP).
Local Abbreviation directDomains := (directDomains Hostname).
Local Abbreviation directLocalhost :=
  (directLocalhost Hostname LookupHost ParseIP).
Local Abbreviation configureProxy :=
  (configureProxy newMartianMITMConfig Hostname First scheme LookupHost ParseIP).
Local Abbreviation newHTTPProxy :=
  (newHTTPProxy HTTPScheme HTTPSScheme ServerValidate validateProxyURL
     newMartianMITMConfig Hostname First scheme LookupHost ParseIP).



End Configured.


End ForwarderUpstreamFacts.

(** ** The proxy: opening the listener *)

Module ForwarderListenFacts.

Import Http Forwarder ForwarderMore.

Section Listen.

Context (HTTPScheme HTTPSScheme HTTP2Scheme : string)
  (ServerValidate : HTTPProxyConfig → option error)
  (validateProxyURL : option URL → option error)
  (newMartianMITMConfig : MITMConfig → outcome MartianMITM)
  (Hostname : URL → string) (First : string → outcome Pac.Proxy)
  (scheme : Pac.Mode → string)
  (LookupHost : string → outcome (list string))
  (ParseIP : string → option IP)
  (netListen : string → string → outcome NetListener)
  (quote : string → string).

Local Abbreviation newHTTPProxy :=
  (newHTTPProxy HTTPScheme HTTPSScheme ServerValidate validateProxyURL
     newMartianMITMConfig Hostname First scheme LookupHost ParseIP).
Local Abbreviation listen :=
  (listen netListen quote HTTPScheme HTTPSScheme HTTP2Scheme).

(** A protocol outside the three known ones makes [listen] fail, and the
    listener it had opened is closed. *)
Lemma listen_invalid_protocol addr rl wl tls hp l :
  netListen "tcp" addr = Ok l →
  Protocol (config hp) ≠ HTTPScheme → Protocol (config hp) ≠ HTTPSScheme →
  Protocol (config hp) ≠ HTTP2Scheme →
  ∃ opened, listen addr rl wl tls hp
            = (Err ("invalid protocol " +:+ quote (Protocol (config hp))),
               [opened])
    ∧ (opened = l ∨ opened = RateLimited l wl rl).
Proof.
  intros Hl H1 H2 H3. unfold ForwarderMore.listen. rewrite Hl.
  apply String.eqb_neq in H1, H2, H3. rewrite H1, H2, H3. simpl.
  eexists. split; [reflexivity|].
  destruct ((rl >? 0) || (wl >? 0)); auto.
Qed.

(** For a proxy that [newHTTPProxy] returned, [listen] fails only when
    the address cannot be bound, and closes nothing.  The listener is the
    TCP listener, wrapped by the rate limiter when one of the two limits
    is positive (the write limit first, the read limit second), and then
    by TLS unless the protocol is http. *)
Theorem listen_of_constructed cfg pr cm rt hp addr rl wl tls :
  newHTTPProxy cfg pr cm rt = Ok hp →
  (∀ e, netListen "tcp" addr = Err e →
     listen addr rl wl tls hp
     = (Err ("failed to open listener on address " +:+ addr +:+ ": " +:+ e),
        []))
  ∧ (∀ l, netListen "tcp" addr = Ok l →
       listen addr rl wl tls hp
       = (Ok (let limited := if (rl >? 0) || (wl >? 0)
                             then RateLimited l wl rl else l in
              if String.eqb (Protocol cfg) HTTPScheme then limited
              else TLSListener limited tls), [])).
Proof.
  intros H.
  destruct (ForwarderConfigFacts.newHTTPProxy_ok _ _ _ _ _ _ _ _ _ _
              _ _ _ _ _ H) as (Hc & _ & _ & _ & _ & _ & Hp & _).
  unfold ForwarderMore.listen. rewrite Hc. split.
  - intros e ->. reflexivity.
  - intros l ->. cbv zeta.
    destruct (String.eqb_spec (Protocol cfg) HTTPScheme) as [E|E];
      [reflexivity|].
    destruct Hp as [Hp|Hp]; [contradiction|].
    rewrite Hp, String.eqb_refl. reflexivity.
Qed.

End Listen.

Lemma listen_of_constructed_witness :
  listen (λ _ a, Ok (TCPListener a)) (λ s, s) "http" "https" "h2"
    ":3128" 0 1024 None
    (set_proxy None None
       (Samples.proxyOf Samples.baseConfig None Samples.noCredentials))
  = (Ok (RateLimited (TCPListener ":3128") 1024 0), []).
Proof.
  destruct (listen_of_constructed "http" "https" "h2" Samples.serverValidate
              Samples.proxyURLValid Samples.mitmConfig Samples.hostname
              Samples.pacFirst Samples.pacScheme (λ _, Err "no dial")
              sampleParseIP (λ _ a, Ok (TCPListener a)) (λ s, s)
              Samples.baseConfig None Samples.noCredentials None
              (set_proxy None None
                 (Samples.proxyOf Samples.baseConfig None Samples.noCredentials))
              ":3128" 0 1024 None eq_refl) as [_ H].
  exact (H (TCPListener ":3128") eq_refl).
Defined.

Section Public.

Context (HTTPScheme HTTPSScheme : string)
  (ServerValidate : HTTPProxyConfig → option error)
  (validateProxyURL : option URL → option error)
  (newMartianMITMConfig : MITMConfig → outcome MartianMITM)
  (Hostname : URL → string) (First : string → outcome Pac.Proxy)
  (scheme : Pac.Mode → string)
  (LookupHost : string → outcome (list string))
  (ParseIP : string → option IP)
  (configureHTTPS : HTTPProxy → option error)
  (listen : HTTPProxy → outcome Listener).

Local Abbreviation newHTTPProxy :=
  (newHTTPProxy HTTPScheme HTTPSScheme ServerValidate validateProxyURL
     newMartianMITMConfig Hostname First scheme LookupHost ParseIP).
Local Abbreviation NewHTTPProxy :=
  (NewHTTPProxy HTTPScheme HTTPSScheme ServerValidate validateProxyURL
     newMartianMITMConfig Hostname First scheme LookupHost ParseIP).
Local Abbreviation NewHTTPProxyHandler :=
  (NewHTTPProxyHandler HTTPScheme HTTPSScheme ServerValidate validateProxyURL
     newMartianMITMConfig Hostname First scheme LookupHost ParseIP).

(** A proxy returned by [NewHTTPProxy] is the proxy of [newHTTPProxy]
    with the opened listener, and nothing else changed; TLS was
    configured without error when the protocol is https, and is not
    configured at all for another protocol.  [NewHTTPProxyHandler]
    returns what [newHTTPProxy] returns and opens no listener. *)
Theorem NewHTTPProxy_result cfg pr cm rt :
  (∀ hp', NewHTTPProxy configureHTTPS listen cfg pr cm rt = Ok hp' →
     ∃ hp l, newHTTPProxy cfg pr cm rt = Ok hp ∧ listen hp = Ok l
       ∧ hp' = set_listener l hp ∧ listener hp' = Some l
       ∧ config hp' = cfg ∧ proxyFunc hp' = proxyFunc hp
       ∧ (Protocol cfg = HTTPSScheme → configureHTTPS hp = None))
  ∧ (Protocol cfg ≠ HTTPSScheme →
     ∀ other, NewHTTPProxy other listen cfg pr cm rt
              = NewHTTPProxy configureHTTPS listen cfg pr cm rt)
  ∧ NewHTTPProxyHandler cfg pr cm rt = newHTTPProxy cfg pr cm rt.
Proof.
  split; [|split].
  - intros hp' H. unfold Forwarder.NewHTTPProxy in H.
    destruct (Forwarder.newHTTPProxy _ _ _ _ _ _ _ _ _ _ cfg pr cm rt)
      as [hp| |] eqn:En; try discriminate.
    destruct (ForwarderConfigFacts.newHTTPProxy_ok _ _ _ _ _ _ _ _ _ _
                _ _ _ _ _ En) as (Hc & _).
    rewrite Hc in H.
    destruct (String.eqb_spec (Protocol cfg) HTTPSScheme) as [E|E].
    + destruct (configureHTTPS hp) eqn:Eh; [discriminate|].
      destruct (listen hp) as [l| |] eqn:El; try discriminate.
      injection H as <-. exists hp, l. repeat split; auto.
    + destruct (listen hp) as [l| |] eqn:El; try discriminate.
      injection H as <-. exists hp, l. repeat split; auto.
      intros Hp. contradiction.
  - intros Hp other. unfold Forwarder.NewHTTPProxy.
    destruct (Forwarder.newHTTPProxy _ _ _ _ _ _ _ _ _ _ cfg pr cm rt)
      as [hp| |] eqn:En; try reflexivity.
    destruct (ForwarderConfigFacts.newHTTPProxy_ok _ _ _ _ _ _ _ _ _ _
                _ _ _ _ _ En) as (Hc & _).
    rewrite Hc. apply String.eqb_neq in Hp. rewrite Hp. reflexivity.
  - unfold Forwarder.NewHTTPProxyHandler.
    destruct (Forwarder.newHTTPProxy _ _ _ _ _ _ _ _ _ _ cfg pr cm rt);
      reflexivity.
Qed.

End Public.

Lemma NewHTTPProxy_result_witness :
  NewHTTPProxy "http" "https" Samples.serverValidate Samples.proxyURLValid
    Samples.mitmConfig Samples.hostname Samples.pacFirst Samples.pacScheme
    (λ _, Err "no dial") sampleParseIP (λ _, Some "no certificate")
    (λ _, Ok 80%nat) Samples.baseConfig None Samples.noCredentials None
  = NewHTTPProxy "http" "https" Samples.serverValidate Samples.proxyURLValid
      Samples.mitmConfig Samples.hostname Samples.pacFirst Samples.pacScheme
      (λ _, Err "no dial") sampleParseIP (λ _, None)
      (λ _, Ok 80%nat) Samples.baseConfig None Samples.noCredentials None.
Proof.
  destruct (NewHTTPProxy_result "http" "https" Samples.serverValidate
              Samples.proxyURLValid Samples.mitmConfig Samples.hostname
              Samples.pacFirst Samples.pacScheme (λ _, Err "no dial")
              sampleParseIP (λ _, None) (λ _, Ok 80%nat)
              Samples.baseConfig None Samples.noCredentials None)
    as (_ & H & _).
  apply H. discriminate.
Defined.

End ForwarderListenFacts.

(** ** The proxy: the two header modifiers *)

Module ForwarderHeaderFacts.

Import Http Forwarder ForwarderMore.

Section BasicAuth.

Context (basicAuth : string → string → string).

Local Abbreviation setBasicAuth := (setBasicAuth basicAuth).

Lemma HeaderGet_basic (h : gmap string (list string)) (x : string) :
  String.eqb (HeaderGet (HeaderSet h "Authorization" ("Basic " +:+ x))
                "Authorization") "" = false.
Proof.
  unfold HeaderGet, HeaderSet. rewrite lookup_insert_eq. reflexivity.
Qed.

(** [setBasicAuth] is idempotent: once it ran, running it again leaves
    the request as it is. *)
Theorem setBasicAuth_idempotent (hp : HTTPProxy) (req : Request) :
  setBasicAuth hp (setBasicAuth hp req).1 = ((setBasicAuth hp req).1, None).
Proof.
  unfold Forwarder.setBasicAuth, SetBasicAuth.
  destruct (String.eqb (HeaderGet (Header req) "Authorization") "") eqn:E;
    [destruct (creds hp (Some (RURL req))) as [u|] eqn:Ec|]; simpl;
    rewrite ?HeaderGet_basic, ?E, ?Ec; reflexivity.
Qed.

Lemma setEmptyUserAgent_setBasicAuth (hp : HTTPProxy) (req : Request) :
  (setEmptyUserAgent (setBasicAuth hp req).1).1
  = (setBasicAuth hp (setEmptyUserAgent req).1).1.
Proof.
  destruct req as [m u h t].
  unfold setEmptyUserAgent, Forwarder.setBasicAuth, SetBasicAuth, HeaderGet,
    HeaderSet, with_Header, Password, Username. simpl.
  destruct (h !! "User-Agent") as [vv|] eqn:E; simpl;
    rewrite ?lookup_insert_ne by discriminate;
    destruct (h !! "Authorization") as [[|a l]|] eqn:Ea; simpl;
    try destruct (String.eqb a ""); simpl;
    try destruct (creds hp _) as [ui|]; simpl;
    rewrite ?lookup_insert_ne by discriminate; rewrite ?E; simpl;
    try reflexivity.
  all: f_equal; apply insert_insert_ne; discriminate.
Qed.

(** [setEmptyUserAgent] returns no error and leaves a request with a
    User-Agent header (even one without values) as it is; on any other
    request it adds the empty User-Agent and touches no other header.
    It is idempotent and commutes with [setBasicAuth]. *)
Theorem setEmptyUserAgent_frame (hp : HTTPProxy) (req : Request) :
  (setEmptyUserAgent req).2 = None
  ∧ (∀ vv, Header req !! "User-Agent" = Some vv →
       (setEmptyUserAgent req).1 = req)
  ∧ (Header req !! "User-Agent" = None →
     Header (setEmptyUserAgent req).1 !! "User-Agent" = Some [""])
  ∧ (∀ k, k ≠ "User-Agent" →
       Header (setEmptyUserAgent req).1 !! k = Header req !! k)
  ∧ setEmptyUserAgent (setEmptyUserAgent req).1
    = ((setEmptyUserAgent req).1, None)
  ∧ (setEmptyUserAgent (setBasicAuth hp req).1).1
    = (setBasicAuth hp (setEmptyUserAgent req).1).1.
Proof.
  split; [|split; [|split; [|split; [|split]]]];
    try apply setEmptyUserAgent_setBasicAuth.
  - unfold setEmptyUserAgent. destruct (Header req !! "User-Agent"); reflexivity.
  - intros vv E. unfold setEmptyUserAgent. now rewrite E.
  - intros E. unfold setEmptyUserAgent. rewrite E. simpl.
    unfold HeaderSet. apply lookup_insert_eq.
  - intros k Hk. unfold setEmptyUserAgent.
    destruct (Header req !! "User-Agent"); [reflexivity|]. simpl.
    unfold HeaderSet. now apply lookup_insert_ne.
  - unfold setEmptyUserAgent.
    destruct (Header req !! "User-Agent") as [vv|] eqn:E; simpl.
    + now rewrite E.
    + unfold HeaderSet. now rewrite lookup_insert_eq.
Qed.

End BasicAuth.

Lemma setEmptyUserAgent_frame_witness :
  (setEmptyUserAgent
     (with_Header {["User-Agent" := []]} (Samples.get "http" "origin.test" "/"))).1
  = with_Header {["User-Agent" := []]} (Samples.get "http" "origin.test" "/")
  ∧ Header (setEmptyUserAgent (Samples.get "http" "origin.test" "/")).1
    !! "User-Agent" = Some [""].
Proof.
  split.
  - destruct (setEmptyUserAgent_frame Samples.base64
                (Samples.proxyOf Samples.baseConfig None Samples.credentials)
                (with_Header {["User-Agent" := []]}
                   (Samples.get "http" "origin.test" "/"))) as (_ & H & _).
    apply (H []). reflexivity.
  - destruct (setEmptyUserAgent_frame Samples.base64
                (Samples.proxyOf Samples.baseConfig None Samples.credentials)
                (Samples.get "http" "origin.test" "/")) as (_ & _ & H & _).
    apply H. reflexivity.
Defined.

End ForwarderHeaderFacts.

(** ** The proxy: aborting a request *)

Module ForwarderAbortFacts.

Import Http Forwarder Martian MartianContext ForwarderMore.

Lemma filter_write_errorf (prefix : string) (e : option error) :
  filter (λ x, is_write x = true) (errorf prefix e) = [].
Proof. destruct e; reflexivity. Qed.

Section Abort.

Context (newLogger : Httplog.Mode → outcome HTTPLogger)
  (isNotSupported : error → bool)
  (flush : ReadWriter → option error)
  (copyBody : ResponseWriter → Response → option error).

Local Abbreviation abortIf := (abortIf newLogger isNotSupported flush copyBody).

Lemma filter_write_logs (lf : HTTPLogger) (req : Request) (res : Response) :
  filter (λ x, is_write x = true)
    ((EvLog (ModifyRequest lf req).1
      :: errorf "got error while logging request: " (ModifyRequest lf req).2)
     ++ EvLog (ModifyResponse lf res).1
        :: errorf "got error while logging response: "
             (ModifyResponse lf res).2)%list = [].
Proof.
  rewrite filter_app, !filter_cons, !filter_write_errorf. reflexivity.
Qed.


(** On a session that is already hijacked an abort cannot write its
    response: the modifier panics with the error of the hijack, having
    written nothing, whether or not that error counts as "not
    supported". *)
Theorem abortIf_hijacked_panics (hp : HTTPProxy)
  (condition : Request → outcome bool) (response : Request → Response)
  (returnErr : error) (req : Request) (rctx : GoContext)
  (ctl : outcome (Conn * option ReadWriter)) (sessions : gmap nat Session)
  (lf : HTTPLogger) (ctx : Context) (s : Session) :
  condition req = Ok true →
  newLogger (LogHTTPMode (config hp)) = Ok lf →
  FromContext rctx = Ok (Some ctx) →
  sessions !! session ctx = Some s →
  hijacked s = true →
  ∃ evs, abortIf hp condition response returnErr req rctx ctl sessions
         = (Panic errAlreadyHijacked, sessions, evs)
    ∧ filter (λ x, is_write x = true) evs = [].
Proof.
  intros Hc Hl Hf Hs Hh. unfold ForwarderMore.abortIf.
  rewrite Hc, Hl, Hf, Hs.
  pose proof (filter_write_logs lf req (response req)) as Hlogs.
  destruct (ModifyRequest lf req) as [l1 e1].
  destruct (ModifyResponse lf (response req)) as [l2 e2]. simpl in Hlogs.
  unfold Hijack. rewrite Hh.
  rewrite (insert_id sessions _ _ Hs).
  destruct (isNotSupported errAlreadyHijacked).
  - unfold HijackResponseWriter. rewrite Hh.
    rewrite (insert_id sessions _ _ Hs). eexists. split; [reflexivity|].
    exact Hlogs.
  - eexists. split; [reflexivity|]. exact Hlogs.
Qed.

End Abort.

End ForwarderAbortFacts.

Module ForwarderAbortExamples.

Import Http Forwarder Martian MartianContext ForwarderMore ForwarderAbortFacts.


Lemma abortIf_hijacked_panics_witness :
  ∃ evs, abortIf (λ _, Ok (mkHTTPLogger (λ _, ([], None)) (λ _, ([], None))))
           (String.eqb "feature not supported") (λ _, None) (λ _ _, None)
           (Samples.proxyOf Samples.baseConfig None Samples.noCredentials)
           (λ _, Ok true) (Httpexpect.synthesized 403) "domain access denied"
           (Samples.get "http" "blocked.test" "/")
           (addToContext {| session := 1%nat; n := 1; hash := 7; vals := ∅;
                            skipRoundTrip := false |} None)
           (Err "unused")
           {[1%nat := set_hijacked true (newSession 3%nat 4%nat)]}
         = (Panic errAlreadyHijacked,
            {[1%nat := set_hijacked true (newSession 3%nat 4%nat)]}, evs)
    ∧ filter (λ x, is_write x = true) evs = [].
Proof.
  apply (abortIf_hijacked_panics
           (λ _, Ok (mkHTTPLogger (λ _, ([], None)) (λ _, ([], None))))
           (String.eqb "feature not supported") (λ _, None) (λ _ _, None)
           (Samples.proxyOf Samples.baseConfig None Samples.noCredentials)
           (λ _, Ok true) (Httpexpect.synthesized 403) "domain access denied"
           (Samples.get "http" "blocked.test" "/")
           (addToContext {| session := 1%nat; n := 1; hash := 7; vals := ∅;
                            skipRoundTrip := false |} None)
           (Err "unused")
           {[1%nat := set_hijacked true (newSession 3%nat 4%nat)]}
           (mkHTTPLogger (λ _, ([], None)) (λ _, ([], None)))
           {| session := 1%nat; n := 1; hash := 7; vals := ∅;
              skipRoundTrip := false |}
           (set_hijacked true (newSession 3%nat 4%nat)));
    reflexivity.
Defined.

(** A denied request on a connection, then a second abort on the same
    connection. *)
Example abort_twice :
  let deny := abortIf
                (λ _, Ok (mkHTTPLogger (λ _, (["GET blocked"], None))
                            (λ _, ([], None))))
                (String.eqb "feature not supported") (λ _, None) (λ _ _, None)
                (Samples.proxyOf Samples.baseConfig None Samples.noCredentials)
                (λ _, Ok true) (Httpexpect.synthesized 403)
                "domain access denied"
                (Samples.get "http" "blocked.test" "/")
                (addToContext {| session := 1%nat; n := 1; hash := 7;
                                 vals := ∅; skipRoundTrip := false |} None)
                (Err "unused") in
  (deny {[1%nat := newSession 3%nat 4%nat]}).1.1 = Ok (Some "domain access denied")
  ∧ (deny (deny {[1%nat := newSession 3%nat 4%nat]}).1.2).1.1
    = Panic errAlreadyHijacked.
Proof. split; reflexivity. Qed.

End ForwarderAbortExamples.

(** ** The proxy: the deny policies *)

Module ForwarderDenyFacts.

Import Http Forwarder Martian MartianContext ForwarderMore.

Section Deny.

Context (newLogger : Httplog.Mode → outcome HTTPLogger)
  (isNotSupported : error → bool)
  (flush : ReadWriter → option error)
  (copyBody : ResponseWriter → Response → option error)
  (errorResponse : Request → error → Response)
  (ErrProxyLocalhost ErrProxyDenied : error)
  (Hostname : URL → string)
  (ParseIP : string → option IP).

Local Abbreviation denyLocalhost :=
  (denyLocalhost newLogger isNotSupported flush copyBody errorResponse
     ErrProxyLocalhost).
Local Abbreviation denyDomains :=
  (denyDomains newLogger isNotSupported flush copyBody errorResponse
     ErrProxyDenied).

Lemma abortIf_true_not_nil hp condition response returnErr req rctx ctl
  sessions :
  condition req = Ok true →
  (abortIf newLogger isNotSupported flush copyBody hp condition response
     returnErr req rctx ctl sessions).1.1 ≠ Ok None.
Proof.
  intros Hc. unfold abortIf. rewrite Hc.
  repeat case_match; simpl; discriminate.
Qed.

(** The deny-localhost modifier lets a request pass, without logging,
    writing or hijacking, when its hostname is not "localhost" and the
    lookup of the hostname fails; it never lets a request for
    "localhost" pass, and does not look that name up.  The deny-domains
    modifier lets a request pass exactly when the matcher does not match
    its hostname. *)
Theorem deny_policies (hp : HTTPProxy)
  (LookupHost : string → outcome (list string)) (r : RegexpMatcher)
  (req : Request) (rctx : GoContext)
  (ctl : outcome (Conn * option ReadWriter)) (sessions : gmap nat Session) :
  (Hostname (RURL req) ≠ "localhost" →
   (∃ e, LookupHost (Hostname (RURL req)) = Err e) →
   denyLocalhost hp (isLocalhost Hostname LookupHost ParseIP) req rctx ctl
     sessions = (Ok None, sessions, []))
  ∧ (Hostname (RURL req) = "localhost" →
     (denyLocalhost hp (isLocalhost Hostname LookupHost ParseIP) req rctx ctl
        sessions).1.1 ≠ Ok None
     ∧ ∀ other,
         denyLocalhost hp (isLocalhost Hostname other ParseIP) req rctx ctl
           sessions
         = denyLocalhost hp (isLocalhost Hostname LookupHost ParseIP) req rctx
             ctl sessions)
  ∧ (r (Hostname (RURL req)) = false ↔
     denyDomains hp Hostname r req rctx ctl sessions = (Ok None, sessions, [])).
Proof.
  split; [|split].
  - intros Hn [e He]. unfold ForwarderMore.denyLocalhost, abortIf,
      isLocalhost, isLocalhostName.
    apply String.eqb_neq in Hn. rewrite Hn, He. reflexivity.
  - intros Hl. split.
    + apply abortIf_true_not_nil. unfold isLocalhost, isLocalhostName.
      now rewrite Hl.
    + intros other. unfold ForwarderMore.denyLocalhost, abortIf, isLocalhost,
        isLocalhostName. rewrite Hl. reflexivity.
  - split.
    + intros Hr. unfold ForwarderMore.denyDomains, abortIf. now rewrite Hr.
    + intros H. destruct (r (Hostname (RURL req))) eqn:Hr; [|reflexivity].
      exfalso.
      apply (abortIf_true_not_nil hp (λ req, Ok (r (Hostname (RURL req))))
               (λ req, errorResponse req ErrProxyDenied) "domain access denied"
               req rctx ctl sessions); [now rewrite Hr|].
      unfold ForwarderMore.denyDomains in H. now rewrite H.
Qed.

End Deny.

Lemma deny_policies_witness :
  denyLocalhost (λ _, Ok (mkHTTPLogger (λ _, ([], None)) (λ _, ([], None))))
    (String.eqb "feature not supported") (λ _, None) (λ _ _, None)
    (λ req _, Httpexpect.synthesized 403 req) "localhost access denied"
    (Samples.proxyOf Samples.baseConfig None Samples.noCredentials)
    (isLocalhost Samples.hostname (λ _, Err "no dial") sampleParseIP)
    (Samples.get "http" "example.com" "/") Background (Err "unused") ∅
  = (Ok None, ∅, []).
Proof.
  destruct (deny_policies
              (λ _, Ok (mkHTTPLogger (λ _, ([], None)) (λ _, ([], None))))
              (String.eqb "feature not supported") (λ _, None) (λ _ _, None)
              (λ req _, Httpexpect.synthesized 403 req)
              "localhost access denied" "domain access denied"
              Samples.hostname sampleParseIP
              (Samples.proxyOf Samples.baseConfig None Samples.noCredentials)
              (λ _, Err "no dial") (λ _, false)
              (Samples.get "http" "example.com" "/") Background (Err "unused")
              ∅) as (H & _).
  apply H; [discriminate | eexists; reflexivity].
Defined.

End ForwarderDenyFacts.

(** ** The proxy: the error response on a response writer *)

Module ForwarderWriterFacts.

Import Http Forwarder ForwarderMore.

Section Writer.

Context (canon : string → string).

Local Abbreviation HeaderAdd := (HeaderAdd canon).
Local Abbreviation addAll := (addAll canon).
Local Abbreviation added := (added canon).

(** The values under a key after more values were appended to it. *)
Local Abbreviation extended :=
  (λ (h : gmap string (list string)) (key : string) (l : list string),
     match l with
     | [] => h !! key
     | _ => Some (default [] (h !! key) ++ l)%list
     end).

Lemma addAll_lookup (h : gmap string (list string)) (k key : string)
  (vv : list string) :
  addAll h k vv !! key
  = extended h key (if decide (canon k = key) then vv else []).
Proof.
  unfold ForwarderMore.addAll. revert h.
  induction vv as [|v vv IH]; intros h; simpl.
  - destruct (decide (canon k = key)); reflexivity.
  - rewrite IH. unfold ForwarderMore.HeaderAdd.
    destruct (decide (canon k = key)) as [->|Hne].
    + rewrite lookup_insert_eq. simpl.
      destruct vv; [reflexivity|]. now rewrite <- app_assoc.
    + now rewrite lookup_insert_ne.
Qed.

Lemma extended_app (h h' : gmap string (list string)) (key : string)
  (l1 l2 : list string) :
  h' !! key = extended h key l1 →
  extended h' key l2 = extended h key (l1 ++ l2)%list.
Proof.
  intros H. destruct l2 as [|y l2].
  - rewrite app_nil_r. exact H.
  - rewrite H. destruct l1 as [|x l1]; [reflexivity|]. simpl.
    now rewrite <- app_assoc.
Qed.

Lemma visit_lookup (entries : list (string * list string))
  (h : gmap string (list string)) (key : string) :
  foldl (λ h '(k, vv), addAll h k vv) h entries !! key
  = extended h key (added entries key).
Proof.
  unfold ForwarderMore.added. revert h.
  induction entries as [|[k vv] entries IH]; intros h; simpl; [reflexivity|].
  rewrite IH. apply extended_app, addAll_lookup.
Qed.

Lemma added_elem (entries : list (string * list string)) (k v : string)
  (vv : list string) :
  (k, vv) ∈ entries → v ∈ vv → v ∈ added entries (canon k).
Proof.
  intros Hk Hv. unfold ForwarderMore.added.
  apply list_elem_of_In, in_concat. exists vv. split.
  - apply in_map_iff. exists (k, vv). split.
    + now rewrite decide_True.
    + now apply list_elem_of_In.
  - now apply list_elem_of_In.
Qed.

(** What the response writer has received after the error response was
    written to it, for every order in which the header of the response
    is visited.  Every header value of the response is among the values
    of its canonical key, after those the writer already held; when the
    response is marked to close, the Connection header is exactly
    "close", whatever the response or the writer said; the status code
    is that of the response unless one was already written; the body is
    appended. *)
Theorem error_response_written (res : Response) (close : bool)
  (copied : string) (w : Written) (entries : list (string * list string)) :
  entries ≡ₚ map_to_list (RespHeader res) →
  let w' := writeErrorResponseToResponseWriter canon entries res close copied w in
  (∀ k vv v, RespHeader res !! k = Some vv → v ∈ vv →
     close = false ∨ canon k ≠ canon "Connection" →
     ∃ l, wHeader w' !! canon k
          = Some (default [] (wHeader w !! canon k) ++ l)%list
          ∧ v ∈ l)
  ∧ (close = true → wHeader w' !! canon "Connection" = Some ["close"])
  ∧ (∀ key, added entries key = [] →
       close = false ∨ key ≠ canon "Connection" →
       wHeader w' !! key = wHeader w !! key)
  ∧ wStatus w' = Some (default (StatusCode res) (wStatus w))
  ∧ wBody w' = wBody w +:+ copied.
Proof.
  intros Hperm w'.
  assert (∀ key, close = false ∨ key ≠ canon "Connection" →
                 wHeader w' !! key = extended (wHeader w) key (added entries key))
    as Hkey.
  { intros key Hc. unfold w', writeErrorResponseToResponseWriter, WriteHeader.
    simpl. destruct (wStatus w); simpl;
      (destruct close;
       [destruct Hc as [Hc|Hc]; [discriminate|];
        rewrite lookup_insert_ne by congruence|]; apply visit_lookup). }
  split; [|split; [|split; [|split]]].
  - intros k vv v Hk Hv Hc.
    assert ((k, vv) ∈ entries) as Hin.
    { rewrite Hperm. now apply elem_of_map_to_list. }
    pose proof (added_elem _ _ _ _ Hin Hv) as Ha.
    rewrite (Hkey _ Hc).
    destruct (added entries (canon k)) as [|x l] eqn:El; [inversion Ha|].
    eexists. split; [reflexivity | exact Ha].
  - intros ->. unfold w', writeErrorResponseToResponseWriter, WriteHeader.
    simpl. destruct (wStatus w); simpl; apply lookup_insert_eq.
  - intros key Ha Hc. rewrite (Hkey _ Hc), Ha. reflexivity.
  - unfold w', writeErrorResponseToResponseWriter, WriteHeader. simpl.
    destruct (wStatus w); reflexivity.
  - unfold w', writeErrorResponseToResponseWriter, WriteHeader. simpl.
    destruct (wStatus w); reflexivity.
Qed.

End Writer.

Lemma error_response_written_witness :
  wHeader
    (writeErrorResponseToResponseWriter (λ k, k)
       [("Proxy-Authenticate", ["Basic realm=x"]); ("Connection", ["keep-alive"])]
       {| StatusCode := 407; Status := "Proxy Authentication Required";
          ProtoMajor := 1; ProtoMinor := 1;
          RespHeader := {["Proxy-Authenticate" := ["Basic realm=x"];
                          "Connection" := ["keep-alive"]]};
          Body := "denied"; RespRequest := None |}
       true "denied" {| wHeader := ∅; wStatus := None; wBody := "" |})
  !! "Connection" = Some ["close"].
Proof.
  assert ([("Proxy-Authenticate", ["Basic realm=x"]);
           ("Connection", ["keep-alive"])]
          ≡ₚ map_to_list
               (RespHeader
                  {| StatusCode := 407; Status := "Proxy Authentication Required";
                     ProtoMajor := 1; ProtoMinor := 1;
                     RespHeader := {["Proxy-Authenticate" := ["Basic realm=x"];
                                     "Connection" := ["keep-alive"]]};
                     Body := "denied"; RespRequest := None |})) as Hp.
  { simpl RespHeader. symmetry.
    rewrite map_to_list_insert by reflexivity.
    rewrite map_to_list_singleton. reflexivity. }
  destruct (error_response_written (λ k, k) _ true "denied"
              {| wHeader := ∅; wStatus := None; wBody := "" |} _ Hp)
    as (_ & H & _).
  apply H. reflexivity.
Defined.

End ForwarderWriterFacts.

(** ** The HTTP logger: modes and messages *)

Module HttplogModeFacts.

Import Http Httplog StringFacts Samples2.

Section Logger.

Context (Redacted : Http.URL → string) (fmt_v fmt_s : Z → string)
  (snapshotRequest : bool → Request → string * option Result.error)
  (snapshotResponse : bool → Response → string * option Result.error).

Local Abbreviation LogFunc :=
  (LogFunc Redacted fmt_v fmt_s snapshotRequest snapshotResponse).
Local Abbreviation ShortURLLine := (ShortURLLine fmt_v fmt_s).
Local Abbreviation URLLine := (URLLine Redacted fmt_v fmt_s).
Local Abbreviation Dump := (Dump snapshotRequest snapshotResponse).

(** [LogFunc] knows seven modes, the empty one included; on any other
    mode it panics with the name of the mode. *)
Theorem LogFunc_known_modes (mode : Mode) :
  (mode ∈ [""; None; ShortURL; URL; Headers; Body; Errors] ↔
   ∃ f, LogFunc mode = Ok f)
  ∧ (mode ∉ [""; None; ShortURL; URL; Headers; Body; Errors] →
     LogFunc mode = Panic ("unknown log mode " +:+ mode)).
Proof.
  assert (mode ∉ [""; None; ShortURL; URL; Headers; Body; Errors] →
          LogFunc mode = Panic ("unknown log mode " +:+ mode)) as Hpanic.
  { intros Hn. unfold Httplog.LogFunc.
    repeat match goal with
           | |- context [String.eqb mode ?x] =>
               destruct (String.eqb_spec mode x) as [->|?];
               [exfalso; apply Hn; set_solver|]
           end.
    reflexivity. }
  split; [|exact Hpanic]. split.
  - intros H. unfold Httplog.LogFunc.
    repeat (apply elem_of_cons in H as [->|H]; [eexists; reflexivity|]).
    inversion H.
  - intros [f Hf].
    destruct (decide (mode ∈ [""; None; ShortURL; URL; Headers; Body; Errors]))
      as [Hin|Hn]; [exact Hin|].
    rewrite (Hpanic Hn) in Hf. discriminate.
Qed.

Lemma b_write (s : string) (w : logWriter) : b (write s w) = b w +:+ s.
Proof. reflexivity. Qed.

Lemma b_trace (e : LogEntry) (w : logWriter) :
  b (trace e w)
  = b w +:+ match Trace (ERequest e) with
            | Some t => "[" +:+ t +:+ "] "
            | Datatypes.None => ""
            end.
Proof.
  unfold trace. destruct (Trace (ERequest e)); [reflexivity|].
  now rewrite append_nil_r.
Qed.

Lemma b_ShortURLLine (e : LogEntry) (w : logWriter) :
  ∃ s, b (ShortURLLine e w) = b (trace e w) +:+ s +:+ "
".
Proof.
  unfold Httplog.ShortURLLine. cbv zeta. rewrite b_write.
  eexists. f_equal. rewrite <- !append_assoc. reflexivity.
Qed.

Lemma b_URLLine (e : LogEntry) (w : logWriter) :
  ∃ s, b (URLLine e w) = b (trace e w) +:+ s +:+ "
".
Proof.
  unfold Httplog.URLLine. cbv zeta. rewrite b_write.
  eexists. f_equal. rewrite <- !append_assoc. reflexivity.
Qed.

Lemma b_Dump (e : LogEntry) (w : logWriter) :
  ∃ s, b (Dump e w) = b w +:+ s +:+ "
".
Proof.
  unfold Httplog.Dump, Httplog.dump, sep, error.
  destruct (snapshotRequest (negb (body w)) (ERequest e)) as [s1 [e1|]].
  - rewrite !b_write. exists (s1 +:+ ("
logger error: " +:+ e1 +:+ "
")). now rewrite !append_assoc.
  - destruct (EResponse e) as [res|].
    + destruct (snapshotResponse _ res) as [s2 [e2|]].
      * rewrite !b_write. exists (s1 +:+ s2 +:+ ("
logger error: " +:+ e2 +:+ "
")). now rewrite !append_assoc.
      * rewrite !b_write. exists (s1 +:+ s2). now rewrite !append_assoc.
    + rewrite !b_write. exists s1. now rewrite !append_assoc.
Qed.

Lemma line_shape (e : LogEntry) (x : string) :
  (∃ s, x = b (trace e (empty false)) +:+ s +:+ "
"
        ∨ x = b (trace e (empty true)) +:+ s +:+ "
") →
  (∃ s, x = s +:+ "
")
  ∧ ∀ t, Trace (ERequest e) = Some t → ∃ rest, x = "[" +:+ t +:+ "] " +:+ rest.
Proof.
  intros [s H]. rewrite !b_trace in H. simpl in H.
  assert (x = match Trace (ERequest e) with
              | Some t => "[" +:+ t +:+ "] "
              | Datatypes.None => ""
              end +:+ s +:+ "
") as -> by (destruct H; assumption).
  split.
  - eexists. rewrite <- append_assoc. reflexivity.
  - intros t ->. eexists. rewrite !append_assoc. reflexivity.
Qed.

(** In every mode, an exchange gives at most one log message; a message
    ends with a line feed, and starts with the trace of the request in
    brackets when the request carries one. *)
Theorem log_message_shape (mode : Mode) (f : LogEntry → list string)
  (e : LogEntry) :
  LogFunc mode = Ok f →
  (length (f e) ≤ 1)%nat
  ∧ ∀ msg, msg ∈ f e →
      (∃ s, msg = s +:+ "
")
      ∧ ∀ t, Trace (ERequest e) = Some t →
             ∃ rest, msg = "[" +:+ t +:+ "] " +:+ rest.
Proof.
  unfold Httplog.LogFunc.
  assert (∀ wb, ∃ s, String (Dump e (ShortURLLine e (empty wb)))
                     = b (trace e (empty wb)) +:+ s +:+ "
") as Hdump.
  { intros wb. unfold String.
    destruct (b_Dump e (ShortURLLine e (empty wb))) as [s2 ->].
    destruct (b_ShortURLLine e (empty wb)) as [s1 ->].
    exists (s1 +:+ "
" +:+ s2). now rewrite !append_assoc. }
  destruct (String.eqb mode "" || String.eqb mode None).
  { intros [= <-]. split; [simpl; lia|]. intros msg H. inversion H. }
  destruct (String.eqb mode ShortURL).
  { intros [= <-]. split; [simpl; lia|]. intros msg H.
    apply list_elem_of_singleton in H as ->. apply line_shape.
    destruct (b_ShortURLLine e (empty false)) as [s Hs]. exists s. now left. }
  destruct (String.eqb mode URL).
  { intros [= <-]. split; [simpl; lia|]. intros msg H.
    apply list_elem_of_singleton in H as ->. apply line_shape.
    destruct (b_URLLine e (empty false)) as [s Hs]. exists s. now left. }
  destruct (String.eqb mode Headers).
  { intros [= <-]. split; [simpl; lia|]. intros msg H.
    apply list_elem_of_singleton in H as ->. apply line_shape.
    destruct (Hdump false) as [s Hs]. exists s. now left. }
  destruct (String.eqb mode Body).
  { intros [= <-]. split; [simpl; lia|]. intros msg H.
    apply list_elem_of_singleton in H as ->. apply line_shape.
    destruct (Hdump true) as [s Hs]. exists s. now right. }
  destruct (String.eqb mode Errors); [|discriminate].
  intros [= <-]. destruct (EStatus e <? StatusInternalServerError).
  - split; [simpl; lia|]. intros msg H. inversion H.
  - split; [simpl; lia|]. intros msg H.
    apply list_elem_of_singleton in H as ->. apply line_shape.
    destruct (Hdump false) as [s Hs]. exists s. now left.
Qed.

End Logger.

Lemma LogFunc_known_modes_witness :
  Httplog.LogFunc Host (λ _, "200") (λ _, "1ms") (λ _ _, ("", Datatypes.None))
    (λ _ _, ("", Datatypes.None)) "debug"
  = Panic "unknown log mode debug".
Proof.
  destruct (LogFunc_known_modes Host (λ _, "200") (λ _, "1ms")
              (λ _ _, ("", Datatypes.None)) (λ _ _, ("", Datatypes.None))
              "debug") as [_ H].
  apply H. intros Hin.
  repeat (apply elem_of_cons in Hin as [Hin|Hin]; [discriminate|]).
  inversion Hin.
Defined.

Lemma log_message_shape_witness :
  (length [Httplog.String
             (Httplog.URLLine Host (λ _, "200") (λ _, "1ms")
                {| ERequest := with_Trace_sample; EResponse := Datatypes.None;
                   EStatus := 200; EDuration := 1 |} (empty false))] ≤ 1)%nat
  ∧ ∀ msg,
      msg ∈ [Httplog.String
               (Httplog.URLLine Host (λ _, "200") (λ _, "1ms")
                  {| ERequest := with_Trace_sample; EResponse := Datatypes.None;
                     EStatus := 200; EDuration := 1 |} (empty false))] →
      (∃ s, msg = s +:+ "
")
      ∧ ∀ t, Trace with_Trace_sample = Some t →
             ∃ rest, msg = "[" +:+ t +:+ "] " +:+ rest.
Proof.
  apply (log_message_shape Host (λ _, "200") (λ _, "1ms")
           (λ _ _, ("", Datatypes.None)) (λ _ _, ("", Datatypes.None)) URL
           (λ e, [Httplog.String
                    (Httplog.URLLine Host (λ _, "200") (λ _, "1ms") e
                       (empty false))])
           {| ERequest := with_Trace_sample; EResponse := Datatypes.None;
              EStatus := 200; EDuration := 1 |}).
  reflexivity.
Defined.

(** A traced request in mode "url". *)
Example url_mode_line :
  ∃ f, Httplog.LogFunc (λ u, Scheme u +:+ "://" +:+ Host u +:+ Path u)
         (λ _, "200") (λ _, "1ms") (λ _ _, ("", Datatypes.None))
         (λ _ _, ("", Datatypes.None)) URL = Ok f
    ∧ f {| ERequest := with_Trace_sample; EResponse := Datatypes.None;
           EStatus := 200; EDuration := 1 |}
      = ["[2-362a007b] GET http://origin.test/ status=200 duration=1ms
"].
Proof. eexists. split; reflexivity. Qed.

End HttplogModeFacts.

(** ** The HTTP logger: when bodies are read *)

Module HttplogBodyFacts.

Import Http Httplog.

Section Logger.

Context (Redacted : Http.URL → string) (fmt_v fmt_s : Z → string)
  (snapshotRequest snapshotRequest' : bool → Request → string * option Result.error)
  (snapshotResponse snapshotResponse' : bool → Response → string * option Result.error).

Lemma body_ShortURLLine (e : LogEntry) (w : logWriter) :
  body (ShortURLLine fmt_v fmt_s e w) = body w.
Proof.
  unfold ShortURLLine, trace. destruct (Trace (ERequest e)); reflexivity.
Qed.

Lemma Dump_skip_body (e : LogEntry) (w : logWriter) :
  body w = false →
  (∀ r, snapshotRequest' true r = snapshotRequest true r) →
  (∀ r, snapshotResponse' true r = snapshotResponse true r) →
  Dump snapshotRequest' snapshotResponse' e w
  = Dump snapshotRequest snapshotResponse e w.
Proof.
  intros Hb Hq Hp. unfold Dump, dump. rewrite Hb. simpl negb. rewrite Hq.
  destruct (snapshotRequest true (ERequest e)) as [s [err|]]; [reflexivity|].
  destruct (EResponse e) as [res|]; [|reflexivity].
  unfold write. simpl. rewrite Hb. simpl. now rewrite Hp.
Qed.

(** Message bodies are read in mode "body" only: in every other mode the
    log messages are the same for any two snapshot services that agree
    when the body is skipped. *)
Theorem bodies_read_in_body_mode_only (mode : Mode)
  (f f' : LogEntry → list string) (e : LogEntry) :
  mode ≠ Body →
  (∀ r, snapshotRequest' true r = snapshotRequest true r) →
  (∀ r, snapshotResponse' true r = snapshotResponse true r) →
  LogFunc Redacted fmt_v fmt_s snapshotRequest snapshotResponse mode = Ok f →
  LogFunc Redacted fmt_v fmt_s snapshotRequest' snapshotResponse' mode = Ok f' →
  f e = f' e.
Proof.
  intros Hm Hq Hp. unfold LogFunc.
  destruct (String.eqb mode "" || String.eqb mode None);
    [intros [= <-] [= <-]; reflexivity|].
  destruct (String.eqb mode ShortURL); [intros [= <-] [= <-]; reflexivity|].
  destruct (String.eqb mode URL); [intros [= <-] [= <-]; reflexivity|].
  destruct (String.eqb mode Headers).
  { intros [= <-] [= <-]. f_equal. f_equal. symmetry.
    apply Dump_skip_body; auto. now rewrite body_ShortURLLine. }
  destruct (String.eqb_spec mode Body); [contradiction|].
  destruct (String.eqb mode Errors); [|discriminate].
  intros [= <-] [= <-]. destruct (EStatus e <? StatusInternalServerError);
    [reflexivity|].
  f_equal. f_equal. symmetry.
  apply Dump_skip_body; auto. now rewrite body_ShortURLLine.
Qed.

End Logger.

Lemma bodies_read_in_body_mode_only_witness :
  [String
     (Dump (λ skip _, (if skip then "HEAD" else "HEAD+BODY", Datatypes.None))
        (λ _ _, ("", Datatypes.None))
        {| ERequest := Samples2.with_Trace_sample; EResponse := Datatypes.None;
           EStatus := 200; EDuration := 1 |}
        (ShortURLLine (λ _, "200") (λ _, "1ms")
           {| ERequest := Samples2.with_Trace_sample;
              EResponse := Datatypes.None; EStatus := 200; EDuration := 1 |}
           (empty false)))]
  = [String
       (Dump (λ _ _, ("HEAD", Datatypes.None)) (λ _ _, ("", Datatypes.None))
          {| ERequest := Samples2.with_Trace_sample;
             EResponse := Datatypes.None; EStatus := 200; EDuration := 1 |}
          (ShortURLLine (λ _, "200") (λ _, "1ms")
             {| ERequest := Samples2.with_Trace_sample;
                EResponse := Datatypes.None; EStatus := 200; EDuration := 1 |}
             (empty false)))].
Proof.
  apply (bodies_read_in_body_mode_only Host (λ _, "200") (λ _, "1ms")
           (λ skip _, (if skip then "HEAD" else "HEAD+BODY", Datatypes.None))
           (λ _ _, ("HEAD", Datatypes.None))
           (λ _ _, ("", Datatypes.None)) (λ _ _, ("", Datatypes.None))
           Headers
           (λ e, [String
                    (Dump (λ skip _, (if skip then "HEAD" else "HEAD+BODY",
                                      Datatypes.None))
                       (λ _ _, ("", Datatypes.None)) e
                       (ShortURLLine (λ _, "200") (λ _, "1ms") e (empty false)))])
           (λ e, [String
                    (Dump (λ _ _, ("HEAD", Datatypes.None))
                       (λ _ _, ("", Datatypes.None)) e
                       (ShortURLLine (λ _, "200") (λ _, "1ms") e (empty false)))])
           {| ERequest := Samples2.with_Trace_sample;
              EResponse := Datatypes.None; EStatus := 200; EDuration := 1 |});
    try reflexivity.
  discriminate.
Defined.

End HttplogBodyFacts.

(** ** The e2e client: what [do] changes, requests and expectations *)

Module HttpexpectMoreFacts.

Import Http Httpexpect HttpexpectMore.


(** A successful round trip and a plain http request are never touched. *)
Lemma do_passes (rt : RoundTripper) (req : Request) :
  (rt req).2 = None ∨ Scheme (RURL req) ≠ "https" → do rt req = rt req.
Proof.
  unfold do. destruct (rt req) as [resp [e|]]; simpl; [|reflexivity].
  intros [H|H]; [discriminate|].
  apply String.eqb_neq in H. now rewrite H.
Qed.

Section Client.

Context (newRequest : string → string → outcome Request).

Local Abbreviation request := (request newRequest).

(** Through the client, a rejection by the proxy is an ordinary
    response: when the round trip of an https request fails with the
    status text of a code in 400..599, [request] does not end the test
    but returns a response with an empty body, on which [ExpectStatus]
    holds for that code and for no other, and the empty-body
    expectations hold. *)
Theorem request_sees_rejection (rt : RoundTripper) (baseURL method path : string)
  (opts : list (Request → Request)) (req0 : Request) (resp : option Response)
  (c : Z) :
  newRequest method (baseURL +:+ path) = Ok req0 →
  Scheme (RURL (foldl (λ r opt, opt r) req0 opts)) = "https" →
  400 ≤ c < 600 → StatusText c ≠ "" →
  rt (foldl (λ r opt, opt r) req0 opts) = (resp, Some (StatusText c)) →
  ∃ r, request rt baseURL method path opts = Ok r
    ∧ StatusCode (RResponse r) = c ∧ body r = ""
    ∧ ExpectStatus c r = Ok r
    ∧ ExpectBodySize 0 r = Ok r
    ∧ ExpectBodyContent "" r = Ok r
    ∧ ∀ c', c' ≠ c →
        ExpectStatus c' r = Panic "%s, %s: expected status %d, got %d".
Proof.
  intros Hn Hs Hc Hne Hrt. unfold HttpexpectMore.request. rewrite Hn.
  unfold do. rewrite Hrt, Hs. simpl String.eqb.
  rewrite (HttpexpectFacts.scan_phrase c Hc Hne).
  eexists. split; [reflexivity|]. simpl.
  unfold ExpectStatus, ExpectBodySize, ExpectBodyContent, fatal. simpl.
  rewrite Z.eqb_refl. repeat split.
  intros c' Hc'. apply Z.eqb_neq in Hc'. rewrite Z.eqb_sym, Hc'. reflexivity.
Qed.

(** [request] ends the test exactly when the request cannot be built,
    the (adjusted) round trip reports an error, or it reports neither a
    response nor an error; the options are applied in order before the
    round trip. *)
Theorem request_outcome (rt : RoundTripper) (baseURL method path : string)
  (opts : list (Request → Request)) :
  (∃ r, request rt baseURL method path opts = Ok r) ↔
  ∃ req0 resp,
    newRequest method (baseURL +:+ path) = Ok req0
    ∧ do rt (foldl (λ r opt, opt r) req0 opts) = (Some resp, None).
Proof.
  unfold HttpexpectMore.request. split.
  - intros [r H].
    destruct (newRequest method (baseURL +:+ path)) as [req0| |];
      try discriminate.
    destruct (do rt _) as [[resp|] [e|]] eqn:Ed; try discriminate.
    exists req0, resp. auto.
  - intros (req0 & resp & -> & ->). eexists. reflexivity.
Qed.

End Client.

Lemma request_sees_rejection_witness :
  ∃ r, HttpexpectMore.request
         (λ m u, Ok (Samples.get "https" "example.com:443" "/"))
         (λ _, (None, Some "Service Unavailable"))
         "https://example.com:443" "GET" "/" [λ r, with_Header ∅ r] = Ok r
    ∧ StatusCode (RResponse r) = 503 ∧ body r = ""
    ∧ ExpectStatus 503 r = Ok r
    ∧ ExpectBodySize 0 r = Ok r
    ∧ ExpectBodyContent "" r = Ok r
    ∧ ∀ c', c' ≠ 503 →
        ExpectStatus c' r = Panic "%s, %s: expected status %d, got %d".
Proof.
  apply (request_sees_rejection
           (λ m u, Ok (Samples.get "https" "example.com:443" "/"))
           (λ _, (None, Some "Service Unavailable"))
           "https://example.com:443" "GET" "/" [λ r, with_Header ∅ r]
           (Samples.get "https" "example.com:443" "/") None 503).
  - reflexivity.
  - reflexivity.
  - lia.
  - discriminate.
  - reflexivity.
Defined.

End HttpexpectMoreFacts.
